(** * flask-database-starter: the books REST API (part 4) and the
      product list page (part 5)

    A shallow embedding of the request handlers of [part-4/app.py] and
    [part-5/app.py].  A handler is a function from the table contents and
    the decoded request to an outcome (a status with a JSON body, or an
    exception that no handler catches) and, for the mutating routes, the
    table contents after the request.

    The table is the list of its rows in the order an unordered [SELECT]
    yields them.  SQL [ORDER BY] belongs to the database engine: it is an
    interface ([Backend]) with the guarantees SQL gives, and two engines
    implementing it are defined below. *)

From Stdlib Require Import ZArith List String Ascii Bool Lia.
From Stdlib Require Import Permutation Sorted RelationClasses.
From Stdlib Require OrderedTypeEx.
Import ListNotations.

Local Open Scope string_scope.
Local Open Scope Z_scope.

(** ** Outcomes of a request *)

(** Exceptions the handlers can let escape; Flask answers them with 500. *)
Inductive Exn :=
| AttributeError
| TypeError
| ValueError
| IntegrityError
| OperationalError
| OverflowError
| BadRequestKeyError.

(** [Unspecified] is the answer of the model where it does not know the
    program's: a name whose presence on the model class it cannot tell,
    or a key that SQLite draws at random.  The table that goes with it is
    the one before the request and says nothing of the one after. *)
Inductive Outcome (B : Type) :=
| Respond (status : Z) (body : B)
| Unhandled (e : Exn)
| Unspecified.
Arguments Respond {B} status body.
Arguments Unhandled {B} e.
Arguments Unspecified {B}.

(** The integers the [sqlite3] driver binds to a statement: those of 64
    bits.  Any other raises [OverflowError]. *)
Definition int64 (z : Z) : bool :=
  (- 2 ^ 63 <=? z) && (z <? 2 ^ 63).

(** [needle in hay] for two strings. *)
Fixpoint str_contains (needle hay : string) : bool :=
  if String.prefix needle hay then true
  else match hay with
       | EmptyString => false
       | String _ hay' => str_contains needle hay'
       end.

(** [request.args.get(name, default, type=int)]: the argument after
    werkzeug's conversion, [None] when it is absent or not an integer. *)
Definition arg_int (a : option Z) (default : Z) : Z :=
  match a with Some z => z | None => default end.

(** [request.args.get(name, default)] *)
Definition arg_str (a : option string) (default : string) : string :=
  match a with Some s => s | None => default end.

(** Python truthiness of an optional string: [None] and [''] are falsy.
    A [string] holds the UTF-8 bytes of the Python text. *)
Definition truthy (a : option string) : bool :=
  match a with
  | Some (String _ _) => true
  | _ => false
  end.

Module Part4.

(** ** The model: [class Book(db.Model)] *)

(** A [Book] object.  [title] and [author] are [nullable=False] columns,
    but the attribute of the Python object can still hold [None]; the
    constraint is checked by the table on commit ([table_accepts]). *)
Record Book := mkBook {
  id : Z;
  title : option string;
  author : option string;
  year : option Z;
  isbn : option string;
  created_at : Z (* the instant, in microseconds *)
}.

(** The dict built by [Book.to_dict]; [created_at] stands for the ISO-8601
    rendering of the same instant. *)
Record BookDict := mkDict {
  d_id : Z;
  d_title : option string;
  d_author : option string;
  d_year : option Z;
  d_isbn : option string;
  d_created_at : Z
}.

Definition to_dict (self : Book) : BookDict :=
  {| d_id := id self;
     d_title := title self;
     d_author := author self;
     d_year := year self;
     d_isbn := isbn self;
     d_created_at := created_at self |}.

Inductive Column :=
| col_id | col_title | col_author | col_year | col_isbn | col_created_at.

Definition column_of_name (name : string) : option Column :=
  if String.eqb name "id" then Some col_id
  else if String.eqb name "title" then Some col_title
  else if String.eqb name "author" then Some col_author
  else if String.eqb name "year" then Some col_year
  else if String.eqb name "isbn" then Some col_isbn
  else if String.eqb name "created_at" then Some col_created_at
  else None.

(** What [getattr(Book, name)] finds: a mapped column, which has [asc()]
    and [desc()], or some other attribute, which has neither. *)
Inductive Attr :=
| InstrumentedAttribute (c : Column)
| PlainAttribute.

Inductive Lookup :=
| found (a : Attr)
| absent
| unknown.

(** ** Ordering of rows *)

Inductive Direction := Asc | Desc.

(** SQLite compares [NULL] below every value. *)
Definition compare_nullable {A} (cmp : A -> A -> comparison)
    (x y : option A) : comparison :=
  match x, y with
  | None, None => Eq
  | None, Some _ => Lt
  | Some _, None => Gt
  | Some a, Some b => cmp a b
  end.

Definition col_compare (c : Column) (a b : Book) : comparison :=
  match c with
  | col_id => Z.compare (id a) (id b)
  | col_title => compare_nullable String.compare (title a) (title b)
  | col_author => compare_nullable String.compare (author a) (author b)
  | col_year => compare_nullable Z.compare (year a) (year b)
  | col_isbn => compare_nullable String.compare (isbn a) (isbn b)
  | col_created_at => Z.compare (created_at a) (created_at b)
  end.

(** [in_order c d a b]: row [a] may come before row [b] in
    [ORDER BY c d]. *)
Definition in_order (c : Column) (d : Direction) (a b : Book) : bool :=
  match d, col_compare c a b with
  | Asc, Gt => false
  | Desc, Lt => false
  | _, _ => true
  end.

Definition ordered (c : Column) (d : Direction) (a b : Book) : Prop :=
  in_order c d a b = true.

(** ** What the handlers take from Flask-SQLAlchemy and the database

    [Model_hasattr] tells whether [Book] inherits an attribute of that
    name from [db.Model], [object] or its metaclass (none of them a
    column): which names these are depends on the versions of Python
    and the libraries, and [None] is the answer for a name not known.
    [order_by] is the engine's [ORDER BY]: SQL promises the same rows, in
    order of the key, and says nothing about rows with equal keys. *)
Class Backend := {
  Model_hasattr : string -> option bool;
  order_by : Column -> Direction -> list Book -> list Book;
  order_by_perm : forall c d rows, Permutation rows (order_by c d rows);
  order_by_sorted : forall c d rows,
      StronglySorted (ordered c d) (order_by c d rows)
}.

(** [LIMIT n] and [OFFSET n] for [0 <= n < 2^63]. *)
Definition limit (n : Z) (rows : list Book) : list Book :=
  firstn (Z.to_nat n) rows.

Definition offset (n : Z) (rows : list Book) : list Book :=
  skipn (Z.to_nat n) rows.

(** *** [Query.paginate(page, per_page, error_out=False)] *)

Record Pagination := mkPagination {
  pg_page : Z;
  pg_per_page : Z;
  pg_total : Z;
  pg_items : list Book
}.

(** With [error_out=False] a page below 1 becomes 1 and a page size below
    1 becomes the library's 20. *)
Definition prepare_page_args (page per_page : Z) : Z * Z :=
  (if page <? 1 then 1 else page,
   if per_page <? 1 then 20 else per_page).

(** The items come from [query.limit(per_page).offset((page - 1) *
    per_page).all()]; both numbers are bound to the statement. *)
Definition paginate (rows : list Book) (page per_page : Z)
  : Exn + Pagination :=
  let '(p, pp) := prepare_page_args page per_page in
  if int64 pp && int64 ((p - 1) * pp) then
    inr {| pg_page := p;
           pg_per_page := pp;
           pg_total := Z.of_nat (List.length rows);
           pg_items := limit pp (offset ((p - 1) * pp) rows) |}
  else inl OverflowError.

(** ** JSON bodies of the API *)

Inductive Body :=
| ListBody (page per_page total : Z) (books : list BookDict)
    (* {success: True, page, per_page, total, books} *)
| BookBody (book : BookDict)
    (* {success: True, book} *)
| CreatedBody (message : string) (book : BookDict)
    (* {success: True, message, book} *)
| MessageBody (message : string)
    (* {success: True, message} *)
| SearchBody (count : Z) (books : list BookDict)
    (* {success: True, count, books} *)
| ErrorBody (error : string).
    (* {success: False, error} *)

(** Query arguments of [GET /api/books]. *)
Record ListArgs := mkListArgs {
  arg_page : option Z;
  arg_per_page : option Z;
  arg_sort : option string;
  arg_order : option string
}.

Section Handlers.

Context {backend : Backend}.

(** [getattr(Book, name)]: the six columns, the method [to_dict], and
    what [Book] inherits; [absent] when [hasattr(Book, name)] is
    false. *)
Definition Book_getattr (name : string) : Lookup :=
  match column_of_name name with
  | Some c => found (InstrumentedAttribute c)
  | None =>
      if String.eqb name "to_dict" then found PlainAttribute
      else match Model_hasattr name with
           | Some true => found PlainAttribute
           | Some false => absent
           | None => unknown
           end
  end.

(** The query of [get_books] after the sorting step, run without a
    [LIMIT]. *)
Definition sorted_query (db : list Book) (sort order : string)
  : option (Exn + list Book) :=
  match Book_getattr sort with
  | found (InstrumentedAttribute column) =>
      Some (inr (order_by column
                   (if String.eqb order "desc" then Desc else Asc) db))
  | found PlainAttribute => Some (inl AttributeError)
  | absent => Some (inr db)
  | unknown => None
  end.

Definition get_books (db : list Book) (args : ListArgs) : Outcome Body :=
  let page := arg_int (arg_page args) 1 in
  let per_page := arg_int (arg_per_page args) 5 in
  let sort := arg_str (arg_sort args) "id" in
  let order := arg_str (arg_order args) "asc" in
  match sorted_query db sort order with
  | None => Unspecified
  | Some (inl e) => Unhandled e
  | Some (inr rows) =>
      match paginate rows page per_page with
      | inl e => Unhandled e
      | inr pagination =>
          Respond 200
            (ListBody page per_page (pg_total pagination)
               (map to_dict (pg_items pagination)))
      end
  end.

End Handlers.

(** [data.get(key)] on a JSON object: a key is absent ([None]), [null]
    ([Some None]) or holds a value. *)
Definition dict_get {A} (v : option (option A)) : option A :=
  match v with
  | Some x => x
  | None => None
  end.

(** ** The table *)

(** The row with key [i], if there is one. *)
Definition find_row (db : list Book) (i : Z) : option Book :=
  find (fun b => id b =? i) db.

(** [Book.query.get(id)]: the key is bound to the statement. *)
Definition query_get (db : list Book) (i : Z) : Exn + option Book :=
  if int64 i then inr (find_row db i) else inl OverflowError.

(** The key SQLite gives a new row: 1 in an empty table, else one more
    than the largest in use. *)
Definition next_id (db : list Book) : Z :=
  match map id db with
  | [] => 1
  | i :: ids => fold_right Z.max i ids + 1
  end.

Definition has_isbn (s : string) (b : Book) : bool :=
  match isbn b with
  | Some s' => String.eqb s s'
  | None => false
  end.

(** The constraints of the columns: [title] and [author] are
    [nullable=False], [isbn] is [unique=True] ([NULL]s never clash). *)
Definition table_accepts (row : Book) (others : list Book) : bool :=
  match title row, author row with
  | Some _, Some _ =>
      match isbn row with
      | Some s => negb (existsb (has_isbn s) others)
      | None => true
      end
  | _, _ => false
  end.

Definition other_rows (db : list Book) (i : Z) : list Book :=
  filter (fun b => negb (id b =? i)) db.

Definition replace_row (db : list Book) (i : Z) (row : Book) : list Book :=
  map (fun b => if id b =? i then row else b) db.

(** A [year] the statement can take. *)
Definition binds (year : option Z) : bool :=
  match year with
  | Some y => int64 y
  | None => true
  end.

(** [db.session.add(book); db.session.commit()].  The values are bound
    before the row is checked.  When the largest key is [2^63 - 1] there
    is no next one: SQLite then looks for a free key at random, and the
    model has no answer ([None]). *)
Definition commit_insert (db : list Book) (book : Book)
  : option (Exn + list Book) :=
  if negb (binds (year book)) then Some (inl OverflowError)
  else if negb (int64 (id book)) then None
  else if table_accepts book db then Some (inr (db ++ [book])%list)
  else Some (inl IntegrityError).

(** [db.session.commit()] after the assignments to the book with key
    [i]; [year_set] is the year the body gave, if it gave one: only the
    columns assigned are bound. *)
Definition commit_update (db : list Book) (i : Z) (book : Book)
    (year_set : option (option Z)) : Exn + list Book :=
  if negb (binds (dict_get year_set)) then inl OverflowError
  else if table_accepts book (other_rows db i)
  then inr (replace_row db i book)
  else inl IntegrityError.

(** ** JSON request bodies

    A JSON object is kept to the four keys the handlers read: a key is
    absent ([None]), [null] ([Some None]) or holds a value of the column's
    type. *)
Record BookData := mkData {
  j_title : option (option string);
  j_author : option (option string);
  j_year : option (option Z);
  j_isbn : option (option string)
}.

(** What [request.get_json()] returns.  Of a number only whether it is
    zero matters, of an array only its items that are strings ([None]
    for any other item). *)
Inductive Json :=
| json_null
| json_flag (b : bool)
| json_number (zero : bool)
| json_string (s : string)
| json_array (items : list (option string))
| json_object (d : BookData).

(** Python truthiness of a body that is no object. *)
Definition json_truthy (data : Json) : bool :=
  match data with
  | json_null => false
  | json_flag b => b
  | json_number zero => negb zero
  | json_string s => truthy (Some s)
  | json_array items => negb (Nat.eqb (List.length items) 0)
  | json_object _ => true
  end.

Definition keys : list string := ["title"; "author"; "year"; "isbn"].

(** [key in data] for one of the keys [update_book] tests, on a string
    (a part of it) or an array (an item of it). *)
Definition holds_a_key (data : Json) : bool :=
  match data with
  | json_string s => existsb (fun k => str_contains k s) keys
  | json_array items =>
      existsb (fun k => existsb (fun item =>
                                   match item with
                                   | Some s => String.eqb k s
                                   | None => false
                                   end) items) keys
  | _ => false
  end.

(** ** [LIKE] and [ilike] *)

Definition lower_char (c : ascii) : ascii :=
  let n := nat_of_ascii c in
  if (65 <=? n)%nat && (n <=? 90)%nat then ascii_of_nat (n + 32) else c.

Fixpoint sql_lower (s : string) : string :=
  match s with
  | EmptyString => EmptyString
  | String c s' => String (lower_char c) (sql_lower s')
  end.

(** The bytes [10xxxxxx] that continue a UTF-8 character. *)
Definition is_continuation (c : ascii) : bool :=
  let n := nat_of_ascii c in (128 <=? n)%nat && (n <? 192)%nat.

Fixpoint drop_continuation (s : string) : string :=
  match s with
  | EmptyString => EmptyString
  | String c s' => if is_continuation c then drop_continuation s' else s
  end.

(** What is left of [String c s] after its first character, as SQLite
    reads one: a lead byte takes its continuation bytes with it. *)
Definition after_char (c : ascii) (s : string) : string :=
  if (192 <=? nat_of_ascii c)%nat then drop_continuation s else s.

(** SQLite's [LIKE]: [%] matches any run of characters, [_] any one
    character, an ASCII letter matches in either case. *)
Fixpoint sql_like (pattern s : string) : bool :=
  match pattern with
  | EmptyString =>
      match s with
      | EmptyString => true
      | String _ _ => false
      end
  | String p pattern' =>
      if Ascii.eqb p "%" then
        (fix any_suffix (s : string) : bool :=
           sql_like pattern' s
           || match s with
              | EmptyString => false
              | String _ s' => any_suffix s'
              end) s
      else
        match s with
        | EmptyString => false
        | String c s' =>
            if Ascii.eqb p "_" then sql_like pattern' (after_char c s')
            else Ascii.eqb (lower_char p) (lower_char c)
                 && sql_like pattern' s'
        end
  end.

(** [column.ilike(pattern)] is [lower(column) LIKE lower(pattern)]; a
    [NULL] column matches nothing. *)
Definition ilike (column : option string) (pattern : string) : bool :=
  match column with
  | Some s => sql_like (sql_lower pattern) (sql_lower s)
  | None => false
  end.

(** The [year] argument of the search: [int(year)] is an integer or
    raises [ValueError]; an absent or empty argument is falsy.  The
    integer is bound to the statement. *)
Inductive YearArg :=
| year_absent
| year_int (z : Z)
| year_invalid.

Record SearchArgs := mkSearchArgs {
  arg_q : option string;
  arg_author : option string;
  arg_year : YearArg
}.

(** ** The other routes *)

Definition not_found : Outcome Body :=
  Respond 404 (ErrorBody "Book not found").

Definition get_book (db : list Book) (i : Z) : Outcome Body :=
  match query_get db i with
  | inl e => Unhandled e
  | inr None => not_found
  | inr (Some book) => Respond 200 (BookBody (to_dict book))
  end.

(** [now] is the reading of [datetime.utcnow] for [created_at].  An
    object without a [title] is answered like the empty object, so that
    one needs no case of its own.  A body that is no object is answered
    400 when it is falsy; otherwise [data.get] raises. *)
Definition create_book (now : Z) (db : list Book) (data : Json)
  : Outcome Body * list Book :=
  match data with
  | json_object data =>
      if negb (truthy (dict_get (j_title data)))
         || negb (truthy (dict_get (j_author data)))
      then (Respond 400 (ErrorBody "Title & Author required"), db)
      else if truthy (dict_get (j_isbn data))
              && existsb (has_isbn (arg_str (dict_get (j_isbn data)) "")) db
      then (Respond 400 (ErrorBody "ISBN already exists"), db)
      else
        let book :=
          {| id := next_id db;
             title := dict_get (j_title data);
             author := dict_get (j_author data);
             year := dict_get (j_year data);
             isbn := dict_get (j_isbn data);
             created_at := now |} in
        match commit_insert db book with
        | Some (inr db') =>
            (Respond 201 (CreatedBody "Book created" (to_dict book)), db')
        | Some (inl e) => (Unhandled e, db)
        | None => (Unspecified, db)
        end
  | _ =>
      if json_truthy data then (Unhandled AttributeError, db)
      else (Respond 400 (ErrorBody "Title & Author required"), db)
  end.

(** The four assignments of [update_book]. *)
Definition assign_fields (book : Book) (data : BookData) : Book :=
  let book :=
    match j_title data with
    | Some v => {| id := id book; title := v; author := author book;
                   year := year book; isbn := isbn book;
                   created_at := created_at book |}
    | None => book
    end in
  let book :=
    match j_author data with
    | Some v => {| id := id book; title := title book; author := v;
                   year := year book; isbn := isbn book;
                   created_at := created_at book |}
    | None => book
    end in
  let book :=
    match j_year data with
    | Some v => {| id := id book; title := title book;
                   author := author book; year := v; isbn := isbn book;
                   created_at := created_at book |}
    | None => book
    end in
  match j_isbn data with
  | Some v => {| id := id book; title := title book; author := author book;
                 year := year book; isbn := v;
                 created_at := created_at book |}
  | None => book
  end.

(** On a body that is no object: [null], a number or a boolean makes
    ['title' in data] raise; a string or an array that holds one of the
    keys makes [data['title']] raise, and one that holds none leaves
    nothing to assign.  A commit the table refuses raises and leaves the
    table as it was. *)
Definition update_book (db : list Book) (i : Z) (data : Json)
  : Outcome Body * list Book :=
  match query_get db i with
  | inl e => (Unhandled e, db)
  | inr None => (not_found, db)
  | inr (Some book) =>
      match data with
      | json_object data =>
          let book := assign_fields book data in
          match commit_update db i book (j_year data) with
          | inr db' => (Respond 200 (BookBody (to_dict book)), db')
          | inl e => (Unhandled e, db)
          end
      | json_string _ | json_array _ =>
          if holds_a_key data then (Unhandled TypeError, db)
          else (Respond 200 (BookBody (to_dict book)), db)
      | _ => (Unhandled TypeError, db)
      end
  end.

Definition delete_book (db : list Book) (i : Z)
  : Outcome Body * list Book :=
  match query_get db i with
  | inl e => (Unhandled e, db)
  | inr None => (not_found, db)
  | inr (Some book) =>
      (Respond 200 (MessageBody "Book deleted"), other_rows db i)
  end.

Definition search_books (db : list Book) (args : SearchArgs)
  : Outcome Body :=
  let query := db in
  let query :=
    if truthy (arg_q args)
    then filter (fun b => ilike (title b) ("%" ++ arg_str (arg_q args) "" ++ "%"))
           query
    else query in
  let query :=
    if truthy (arg_author args)
    then filter (fun b => ilike (author b)
                            ("%" ++ arg_str (arg_author args) "" ++ "%"))
           query
    else query in
  match arg_year args with
  | year_invalid => Unhandled ValueError
  | year_absent =>
      Respond 200
        (SearchBody (Z.of_nat (List.length query)) (map to_dict query))
  | year_int y =>
      if int64 y then
        let books :=
          filter (fun b => match year b with
                           | Some y' => y' =? y
                           | None => false
                           end) query in
        Respond 200
          (SearchBody (Z.of_nat (List.length books)) (map to_dict books))
      else Unhandled OverflowError
  end.

(** [init_db]: the four sample books go into an empty table; [now k] is
    the clock when the [k]-th row is written. *)
Definition sample_book (i : Z) (t a : string) (y : Z) (now : Z) : Book :=
  {| id := i; title := Some t; author := Some a; year := Some y;
     isbn := None; created_at := now |}.

Definition init_db (now : nat -> Z) (db : list Book) : list Book :=
  if Z.of_nat (List.length db) =? 0 then
    [ sample_book 1 "Python Crash Course" "Eric Matthes" 2019 (now 0%nat);
      sample_book 2 "Flask Web Development" "Miguel Grinberg" 2018
        (now 1%nat);
      sample_book 3 "Clean Code" "Robert C. Martin" 2008 (now 2%nat);
      sample_book 4 "Effective Python" "Brett Slatkin" 2020 (now 3%nat) ]
  else db.

(** ** Two database engines

    [insertion_sort] keeps rows with equal keys in the order they had: it
    is what SQLite does when it sorts through a temporary b-tree, where
    every row carries its sequence number behind the key. *)
Fixpoint insert_row (leb : Book -> Book -> bool) (x : Book)
    (rows : list Book) : list Book :=
  match rows with
  | [] => [x]
  | y :: rows' =>
      if leb x y then x :: rows else y :: insert_row leb x rows'
  end.

Definition insertion_sort (leb : Book -> Book -> bool) (rows : list Book)
  : list Book :=
  fold_right (insert_row leb) [] rows.

(** An engine that always sorts through the temporary b-tree. *)
Definition order_by_sorter (c : Column) (d : Direction) (rows : list Book)
  : list Book :=
  insertion_sort (in_order c d) rows.

(** SQLite on the [book] table: [id] (the primary key) and [isbn]
    ([unique=True]) have an index, which [ORDER BY] walks forwards for
    [ASC] and backwards for [DESC]; the other columns go through the
    sorter. *)
Definition indexed (c : Column) : bool :=
  match c with
  | col_id | col_isbn => true
  | _ => false
  end.

Definition order_by_sqlite (c : Column) (d : Direction) (rows : list Book)
  : list Book :=
  match d with
  | Desc =>
      if indexed c then rev (insertion_sort (in_order c Asc) rows)
      else insertion_sort (in_order c Desc) rows
  | Asc => insertion_sort (in_order c Asc) rows
  end.

(** Names [Book] is known to inherit, from [db.Model] and from
    [object].  There are more, and which they are depends on the
    versions installed: of a name not listed here the engines below do
    not say whether [Book] has it. *)
Definition Model_names : list string :=
  ["query"; "query_class"; "metadata"; "registry"; "__tablename__";
   "__table__"; "__mapper__"; "__init__"; "__repr__"; "__class__";
   "__dict__"; "__doc__"; "__module__"; "__eq__"; "__str__"; "__hash__"].

Definition Model_has (name : string) : option bool :=
  if existsb (String.eqb name) Model_names then Some true else None.

(** ** Comparison functions that are orders *)

Definition cmp_opp {A} (cmp : A -> A -> comparison) : Prop :=
  forall a b, cmp b a = CompOpp (cmp a b).

Definition cmp_le_trans {A} (cmp : A -> A -> comparison) : Prop :=
  forall a b c, cmp a b <> Gt -> cmp b c <> Gt -> cmp a c <> Gt.

(** ** Tables and predicates the statements use *)

(** A table of [n] books with keys 1 to [n], for the examples. *)
Definition numbered_books (n : nat) : list Book :=
  map (fun k => {| id := Z.of_nat k; title := Some "Book";
                   author := Some "Author"; year := Some 2000;
                   isbn := None; created_at := 0 |}) (seq 1 n).



Local Open Scope string_scope.






End Part4.

(** * Part 5: the product list page *)

Module Part5.

Local Open Scope string_scope.

(** A flashed message, as Flask keeps it in the session: the category and
    the text. *)
Definition Flash : Type := string * string.

(** A view runs against the messages flashed so far; it returns a value
    or raises, and leaves the messages flashed by then. *)
Definition View (A : Type) : Type := list Flash -> (Exn + A) * list Flash.

Definition ret {A} (a : A) : View A := fun fl => (inr a, fl).

Definition raise {A} (e : Exn) : View A := fun fl => (inl e, fl).

Definition bind {A B} (m : View A) (k : A -> View B) : View B :=
  fun fl =>
    match m fl with
    | (inr a, fl') => k a fl'
    | (inl e, fl') => (inl e, fl')
    end.

Notation "x <- m ;; k" := (bind m (fun x => k))
  (at level 61, m at next level, right associativity).

(** [flash(message, category)] *)
Definition flash (message category : string) : View unit :=
  fun fl => (inr tt, (fl ++ [(category, message)])%list).

(** [try: body / except OperationalError: handler]: any other exception
    goes on. *)
Definition except_OperationalError {A} (body handler : View A) : View A :=
  fun fl =>
    match body fl with
    | (inl OperationalError, fl') => handler fl'
    | r => r
    end.

(** [needle in hay] for strings. *)
Fixpoint str_in (needle hay : string) : bool :=
  if String.prefix needle hay then true
  else match hay with
       | EmptyString => false
       | String _ hay' => str_in needle hay'
       end.

(** [str.lower] on the ASCII letters. *)
Definition lower (s : string) : string := Part4.sql_lower s.

Section Products.

(** A row of the product table; [index] hands the rows to the template
    and does not look into them. *)
Variable Product : Type.

(** The database behind [DATABASE_URL]: it answers a query with the rows
    or cannot be reached. *)
Inductive Database :=
| reachable (rows : list Product)
| unreachable.

(** [Product.query.all()] *)
Definition query_all (db : Database) : View (list Product) :=
  match db with
  | reachable rows => ret rows
  | unreachable => raise OperationalError
  end.

(** [render_template('index.html', products=.., db_type=.., db_url=..)] *)
Record Page := mkPage {
  template : string;
  products : list Product;
  db_type : string;
  db_url : string
}.

Definition detect_db_type (DATABASE_URL : string) : string :=
  let db_url := lower DATABASE_URL in
  if str_in "postgresql" db_url || str_in "postgres" db_url then "PostgreSQL"
  else if str_in "mysql" db_url then "MySQL"
  else if str_in "sqlite" db_url then "SQLite"
  else "Unknown".

Definition index (DATABASE_URL : string) (db : Database) : View Page :=
  products <-
    except_OperationalError (query_all db)
      (_ <- flash "Database connection failed!" "danger" ;; ret []) ;;
  ret {| template := "index.html";
         products := products;
         db_type := detect_db_type DATABASE_URL;
         db_url := DATABASE_URL |}.

(** Flask answers a view that returns with 200 and one that raises with
    500. *)
Definition serve {A} (view : View A) (fl : list Flash)
  : Outcome A * list Flash :=
  match view fl with
  | (inr a, fl') => (Respond 200 a, fl')
  | (inl e, fl') => (Unhandled e, fl')
  end.

End Products.

Arguments unreachable {Product}.
Arguments reachable {Product} rows.
Arguments mkPage {Product}.
Arguments query_all {Product} db.
Arguments index {Product} DATABASE_URL db.

End Part5.

(** * The book table as the columns constrain it *)

Module Part4Table.

Import Part4.

(** What the three column constraints of [Book] say of a table: [id] is
    the primary key, [title] and [author] are [nullable=False], and two
    rows with the same (non-[NULL]) [isbn] are one row. *)
Definition table_ok (db : list Book) : Prop :=
  NoDup (map id db)
  /\ (forall b, In b db -> title b <> None /\ author b <> None)
  /\ (forall b1 b2 s, In b1 db -> In b2 db ->
        isbn b1 = Some s -> isbn b2 = Some s -> id b1 = id b2).

(** The books of a list or search response. *)
Definition books_of (o : Outcome Body) : list BookDict :=
  match o with
  | Respond _ (ListBody _ _ _ books) => books
  | Respond _ (SearchBody _ books) => books
  | _ => []
  end.

(** The books a client collects walking pages 1 to [n] of the list. *)
Definition walk_pages {backend : Backend} (db : list Book) (n : nat)
    (per_page : Z) (sort order : option string) : list BookDict :=
  List.concat
    (map (fun p => books_of (get_books db
                               (mkListArgs (Some (Z.of_nat p))
                                  (Some per_page) sort order)))
       (seq 1 n)).

End Part4Table.

(** * Part 5: the other routes of the product page

    The table is the one of SQLite, the database of the default
    [DATABASE_URL] ([sqlite:///default.db]).  Three things below are
    SQLite's and not the program's: the key of a new row, the 64 bits of
    an integer that a statement takes, and a [NaN] stored as [NULL].  A
    PostgreSQL or MySQL server behind [DATABASE_URL] does otherwise. *)

Module Part5Routes.

Import Part5.

Local Open Scope string_scope.

Inductive Method := GET | POST.

(** What a view hands back: a rendered template, [redirect(url_for(..))],
    or the HTTP error of a [werkzeug] abort, which passes through
    [except OperationalError] and ends the view. *)
Inductive Reply :=
| Render (template : string)
| Redirect (endpoint : string)
| Abort (status : Z).

(** [int(request.form.get('stock', 0))] *)
Inductive IntField :=
| int_missing
| int_invalid          (* [int] raises [ValueError] *)
| int_number (z : Z).

(** The stock a form stands for. *)
Definition stock_of (f : IntField) : Z :=
  match f with
  | int_number z => z
  | _ => 0%Z
  end.

(** The status of a reply. *)
Definition status_of (reply : Reply) : Z :=
  match reply with
  | Render _ => 200%Z
  | Redirect _ => 302%Z
  | Abort status => status
  end.

(** [os.getenv('FLASK_DEBUG', 'True') == 'True'], the debug mode that
    [app.run] is given. *)
Definition debug_mode (FLASK_DEBUG : option string) : bool :=
  String.eqb (arg_str FLASK_DEBUG "True") "True".

(** [Flask.handle_user_exception]: a [BadRequestKeyError] is an HTTP
    error and is answered 400, except in debug mode, which traps it and
    lets it go on like any other exception. *)
Definition handle_user_exception (debug : bool) (e : Exn) : Outcome Reply :=
  match e with
  | BadRequestKeyError =>
      if debug then Unhandled BadRequestKeyError else Respond 400 (Abort 400)
  | _ => Unhandled e
  end.

(** What the client is answered for a view. *)
Definition dispatch_request {A} (debug : bool) (view : View (Reply * A))
    (fl : list Flash) : Outcome Reply * list Flash :=
  match view fl with
  | (inr (reply, _), fl') => (Respond (status_of reply) reply, fl')
  | (inl e, fl') => (handle_user_exception debug e, fl')
  end.

Section Inventory.

(** The floats that are numbers; [NaN] is kept apart because the table
    stores it as [NULL]. *)
Variable Float : Type.

(** [float(request.form['price'])] *)
Inductive FloatField :=
| float_missing        (* no such key: [BadRequestKeyError] *)
| float_invalid        (* [float] raises [ValueError] *)
| float_nan
| float_number (x : Float).

Record Product := mkProduct {
  id : Z;
  name : string;
  price : Float;
  stock : Z;
  description : string
}.

(** [request.form] of the add page. *)
Record AddForm := mkAddForm {
  form_name : option string;
  form_price : FloatField;
  form_stock : IntField;
  form_description : option string
}.

(** SQLite's key for a new row: 1 in an empty table, else one more than
    the largest in use. *)
Definition next_product_id (rows : list Product) : Z :=
  match map id rows with
  | [] => 1%Z
  | i :: ids => (fold_right Z.max i ids + 1)%Z
  end.

(** When the largest key is [2^63 - 1] there is no next one, and SQLite
    looks for a free key at random.  [drawn] is what that search gives: a
    free key, or [None] when it gives up with "database or disk is
    full". *)
Definition new_rowid (rows : list Product) (drawn : option Z) : option Z :=
  if int64 (next_product_id rows) then Some (next_product_id rows)
  else drawn.

(** The table keeps its rows by key. *)
Fixpoint insert_row (row : Product) (rows : list Product) : list Product :=
  match rows with
  | [] => [row]
  | r :: rows' =>
      if (id row <? id r)%Z then row :: rows else r :: insert_row row rows'
  end.

(** [db.session.add(product); db.session.commit()] on SQLite.  The
    connection fails first; then the values are bound, and a stock beyond
    64 bits is refused; then the row gets its key; a [NaN] price
    ([None]), stored as [NULL], then breaks [nullable=False]. *)
Definition add_commit (db : Database Product) (drawn : option Z)
    (name : string) (price : option Float) (stock : Z)
    (description : string) : View (Database Product) :=
  match db with
  | unreachable => raise OperationalError
  | reachable rows =>
      if negb (int64 stock) then raise OverflowError
      else
        match new_rowid rows drawn with
        | None => raise OperationalError
        | Some key =>
            match price with
            | None => raise IntegrityError
            | Some x =>
                ret (reachable
                       (insert_row (mkProduct key name x stock description)
                          rows))
            end
        end
  end.

(** [request.form['name']] and [request.form['price']] raise
    [BadRequestKeyError] when the form has no such key. *)
Definition add_product (method : Method) (form : AddForm)
    (drawn : option Z) (db : Database Product)
  : View (Reply * Database Product) :=
  match method with
  | POST =>
      except_OperationalError
        (match form_name form with
         | None => raise BadRequestKeyError
         | Some name =>
             match form_price form with
             | float_missing => raise BadRequestKeyError
             | float_invalid => raise ValueError
             | price =>
                 match form_stock form with
                 | int_invalid => raise ValueError
                 | stock =>
                     db' <- add_commit db drawn name
                              (match price with
                               | float_number x => Some x
                               | _ => None
                               end)
                              (match stock with
                               | int_number z => z
                               | _ => 0%Z
                               end)
                              (arg_str (form_description form) "") ;;
                     _ <- flash "Product added successfully!" "success" ;;
                     ret (Redirect "index", db')
                 end
             end
         end)
        (_ <- flash "Database error! Could not add product." "danger" ;;
         ret (Redirect "index", db))
  | GET => ret (Render "add.html", db)
  end.

(** [Product.query.get_or_404(id)], [None] standing for the 404.  The
    connection comes first, then the key is bound to the statement. *)
Definition get_or_404 (db : Database Product) (i : Z)
  : View (option Product) :=
  rows <- query_all db ;;
  if int64 i then ret (find (fun p => (id p =? i)%Z) rows)
  else raise OverflowError.

(** [db.session.delete(product); db.session.commit()] *)
Definition delete_commit (db : Database Product) (i : Z)
  : View (Database Product) :=
  match db with
  | unreachable => raise OperationalError
  | reachable rows =>
      ret (reachable (filter (fun p => negb (id p =? i)%Z) rows))
  end.

Definition delete_product (i : Z) (db : Database Product)
  : View (Reply * Database Product) :=
  except_OperationalError
    (found <- get_or_404 db i ;;
     match found with
     | None => ret (Abort 404, db)
     | Some product =>
         db' <- delete_commit db i ;;
         _ <- flash "Product deleted!" "danger" ;;
         ret (Redirect "index", db')
     end)
    (_ <- flash "Database error! Could not delete product." "danger" ;;
     ret (Redirect "index", db)).

(** The dict [performance_test] returns; [elapsed] is
    [round(end - start, 6)] as the clock gave it. *)
Variable Seconds : Type.

Record Timing := mkTiming {
  database : string;
  records : Z;
  execution_time_seconds : Seconds
}.

Definition performance_test (SQLALCHEMY_DATABASE_URI : string)
    (elapsed : Seconds) (db : Database Product) : View Timing :=
  products <- query_all db ;;
  ret {| database := SQLALCHEMY_DATABASE_URI;
         records := Z.of_nat (List.length products);
         execution_time_seconds := elapsed |}.

(** [init_db]: the three sample rows go into an empty table, under the
    keys 1, 2 and 3; the floats of the literals [999.99], [29.99] and
    [79.99] are given.  The result is the table and the lines printed;
    the [try] catches the [OperationalError] of a database out of reach,
    whose text is [reason]. *)
Variables laptop_price mouse_price keyboard_price : Float.

Definition sample_products : list Product :=
  [ mkProduct 1 "Laptop" laptop_price 10 "High-performance laptop";
    mkProduct 2 "Mouse" mouse_price 50 "Wireless mouse";
    mkProduct 3 "Keyboard" keyboard_price 30 "Mechanical keyboard" ].

Definition init_db (DATABASE_URL reason : string) (db : Database Product)
  : Database Product * list string :=
  match db with
  | unreachable =>
      (unreachable,
       ["❌ DATABASE CONNECTION FAILED";
        "Reason: " ++ reason;
        "➡ Check DATABASE_URL and DB server"])
  | reachable rows =>
      let connected :=
        ["✅ Database connected successfully!";
         "📦 Using database: " ++ DATABASE_URL] in
      if (Z.of_nat (List.length rows) =? 0)%Z
      then (reachable sample_products,
            (connected ++ ["📘 Sample products inserted"])%list)
      else (reachable rows, connected)
  end.

End Inventory.

Arguments float_missing {Float}.
Arguments float_invalid {Float}.
Arguments float_nan {Float}.
Arguments float_number {Float} x.
Arguments mkProduct {Float} id name price stock description.
Arguments id {Float} p.
Arguments name {Float} p.
Arguments price {Float} p.
Arguments stock {Float} p.
Arguments description {Float} p.
Arguments mkAddForm {Float}.
Arguments next_product_id {Float} rows.
Arguments new_rowid {Float} rows drawn.
Arguments insert_row {Float} row rows.
Arguments add_product {Float} method form drawn db.
Arguments delete_product {Float} i db.
Arguments get_or_404 {Float} db i.
Arguments performance_test {Float Seconds}.
Arguments mkTiming {Seconds}.
Arguments init_db {Float}.
Arguments sample_products {Float}.

(** A form for the examples, the price in whole cents. *)
Definition laptop : AddForm Z :=
  mkAddForm (Some "Laptop") (float_number 99999%Z) int_missing None.

End Part5Routes.

(** * The books API: what the handlers do *)

Module Part4Facts.

Import Part4.

(** ** Facts about the order of rows *)

Section Comparisons.

Variable A : Type.
Variable cmp : A -> A -> comparison.

Lemma compare_nullable_opp : cmp_opp cmp -> forall x y,
    compare_nullable cmp y x = CompOpp (compare_nullable cmp x y).
Proof.
  intros H [a|] [b|]; simpl; auto.
Qed.

Lemma compare_nullable_le_trans : cmp_le_trans cmp -> forall x y z,
    compare_nullable cmp x y <> Gt -> compare_nullable cmp y z <> Gt ->
    compare_nullable cmp x z <> Gt.
Proof.
  intros H [a|] [b|] [c|]; simpl; try congruence; eauto.
Qed.

End Comparisons.

Lemma Z_compare_opp : cmp_opp Z.compare.
Proof. intros a b. apply Z.compare_antisym. Qed.

Lemma Z_compare_le_trans : cmp_le_trans Z.compare.
Proof.
  intros a b c Hab Hbc.
  rewrite Z.compare_le_iff in *. lia.
Qed.

Lemma string_compare_opp : cmp_opp String.compare.
Proof. intros a b. apply String.compare_antisym. Qed.

Lemma string_compare_le_trans : cmp_le_trans String.compare.
Proof.
  intros a b c Hab Hbc Hac.
  assert (Hlt : OrderedTypeEx.String_as_OT.lt c a).
  { apply OrderedTypeEx.String_as_OT.cmp_lt.
    unfold OrderedTypeEx.String_as_OT.cmp.
    rewrite String.compare_antisym, Hac. reflexivity. }
  destruct (String.compare a b) eqn:Eab; [| | congruence].
  - apply OrderedTypeEx.String_as_OT.cmp_eq in Eab. subst b.
    congruence.
  - destruct (String.compare b c) eqn:Ebc; [| | congruence].
    + apply OrderedTypeEx.String_as_OT.cmp_eq in Ebc. subst c.
      congruence.
    + apply OrderedTypeEx.String_as_OT.cmp_lt in Eab, Ebc.
      assert (Hcc : OrderedTypeEx.String_as_OT.lt c c).
      { eapply OrderedTypeEx.String_as_OT.lt_trans; [exact Hlt |].
        eapply OrderedTypeEx.String_as_OT.lt_trans; eassumption. }
      apply OrderedTypeEx.String_as_OT.lt_not_eq in Hcc.
      apply Hcc. reflexivity.
Qed.

Lemma col_compare_opp c a b : col_compare c b a = CompOpp (col_compare c a b).
Proof.
  destruct c; simpl;
    first [ apply Z_compare_opp
          | apply compare_nullable_opp;
            first [ exact Z_compare_opp | exact string_compare_opp ] ].
Qed.

Lemma col_compare_le_trans c x y z :
  col_compare c x y <> Gt -> col_compare c y z <> Gt ->
  col_compare c x z <> Gt.
Proof.
  destruct c; simpl;
    first [ apply Z_compare_le_trans
          | apply compare_nullable_le_trans;
            first [ exact Z_compare_le_trans
                  | exact string_compare_le_trans ] ].
Qed.

Lemma in_order_Asc c a b : in_order c Asc a b = true <-> col_compare c a b <> Gt.
Proof.
  unfold in_order. destruct (col_compare c a b); split; congruence.
Qed.

(** Descending order is ascending order read backwards. *)
Lemma in_order_Desc c a b : in_order c Desc a b = in_order c Asc b a.
Proof.
  unfold in_order. rewrite (col_compare_opp c a b).
  destruct (col_compare c a b); reflexivity.
Qed.

Lemma in_order_total c d a b :
  in_order c d a b = true \/ in_order c d b a = true.
Proof.
  destruct d; rewrite ?in_order_Desc; unfold in_order;
    rewrite (col_compare_opp c a b);
    destruct (col_compare c a b); simpl; auto.
Qed.

#[export] Instance ordered_trans c d : Transitive (ordered c d).
Proof.
  intros x y z. unfold ordered. destruct d.
  - rewrite !in_order_Asc. apply col_compare_le_trans.
  - rewrite !in_order_Desc, !in_order_Asc. intros H1 H2.
    eapply col_compare_le_trans; eassumption.
Qed.

(** ** The insertion sort sorts *)

Section InsertionSort.

Variable leb : Book -> Book -> bool.
Hypothesis leb_total : forall a b, leb a b = true \/ leb b a = true.

Lemma insert_row_perm x rows : Permutation (x :: rows) (insert_row leb x rows).
Proof.
  induction rows as [|y rows IH]; simpl.
  - apply Permutation_refl.
  - destruct (leb x y).
    + apply Permutation_refl.
    + eapply perm_trans; [apply perm_swap |].
      apply perm_skip. exact IH.
Qed.

Lemma insertion_sort_perm rows : Permutation rows (insertion_sort leb rows).
Proof.
  induction rows as [|x rows IH]; simpl.
  - apply perm_nil.
  - eapply perm_trans; [apply perm_skip; exact IH |].
    apply insert_row_perm.
Qed.

Lemma insert_row_HdRel a x rows :
  leb a x = true -> HdRel (fun p q => leb p q = true) a rows ->
  HdRel (fun p q => leb p q = true) a (insert_row leb x rows).
Proof.
  intros Hax Hrel. destruct rows as [|y rows]; simpl.
  - constructor. exact Hax.
  - destruct (leb x y); constructor; [exact Hax |].
    inversion Hrel; assumption.
Qed.

Lemma insert_row_sorted x rows :
  Sorted (fun p q => leb p q = true) rows ->
  Sorted (fun p q => leb p q = true) (insert_row leb x rows).
Proof.
  induction 1 as [|y rows Hs IH Hrel]; simpl.
  - repeat constructor.
  - destruct (leb x y) eqn:Exy.
    + constructor; [constructor; assumption |].
      constructor. exact Exy.
    + constructor; [exact IH |].
      apply insert_row_HdRel; [| exact Hrel].
      destruct (leb_total x y); congruence.
Qed.

Lemma insertion_sort_sorted rows :
  Sorted (fun p q => leb p q = true) (insertion_sort leb rows).
Proof.
  induction rows as [|x rows IH]; simpl.
  - constructor.
  - apply insert_row_sorted. exact IH.
Qed.

End InsertionSort.

Lemma order_by_sorter_sorted c d rows :
  StronglySorted (ordered c d) (order_by_sorter c d rows).
Proof.
  apply Sorted_StronglySorted; [apply ordered_trans |].
  apply (insertion_sort_sorted (in_order c d)). apply in_order_total.
Qed.

Lemma StronglySorted_app (R : Book -> Book -> Prop) l1 l2 :
  StronglySorted R l1 -> StronglySorted R l2 ->
  (forall a b, In a l1 -> In b l2 -> R a b) ->
  StronglySorted R (l1 ++ l2)%list.
Proof.
  intros H1 H2 H12. induction H1 as [|x l1 Hs IH Hall]; simpl.
  - exact H2.
  - constructor.
    + apply IH. intros a b Ha Hb. apply H12; [right|]; assumption.
    + apply Forall_app. split; [exact Hall |].
      apply Forall_forall. intros b Hb. apply H12; [left; reflexivity | exact Hb].
Qed.

(** Reading an ascending list backwards gives a descending one. *)
Lemma StronglySorted_rev_Desc c rows :
  StronglySorted (ordered c Asc) rows ->
  StronglySorted (ordered c Desc) (rev rows).
Proof.
  induction 1 as [|x rows Hs IH Hall]; simpl.
  - constructor.
  - apply StronglySorted_app.
    + exact IH.
    + repeat constructor.
    + intros a b Ha [<-|[]]. apply in_rev in Ha.
      unfold ordered. rewrite in_order_Desc.
      rewrite Forall_forall in Hall. apply Hall. exact Ha.
Qed.

Lemma order_by_sqlite_perm c d rows : Permutation rows (order_by_sqlite c d rows).
Proof.
  unfold order_by_sqlite. destruct d; [apply insertion_sort_perm |].
  destruct (indexed c); [| apply insertion_sort_perm].
  eapply perm_trans; [apply insertion_sort_perm | apply Permutation_rev].
Qed.

Lemma order_by_sqlite_sorted c d rows :
  StronglySorted (ordered c d) (order_by_sqlite c d rows).
Proof.
  unfold order_by_sqlite. destruct d; [apply order_by_sorter_sorted |].
  destruct (indexed c); [| apply order_by_sorter_sorted].
  apply StronglySorted_rev_Desc. apply order_by_sorter_sorted.
Qed.

#[export] Instance sorter_backend : Backend := {|
  Model_hasattr := Model_has;
  order_by := order_by_sorter;
  order_by_perm := fun c d rows => insertion_sort_perm (in_order c d) rows;
  order_by_sorted := order_by_sorter_sorted
|}.

Definition sqlite_backend : Backend := {|
  Model_hasattr := Model_has;
  order_by := order_by_sqlite;
  order_by_perm := order_by_sqlite_perm;
  order_by_sorted := order_by_sqlite_sorted
|}.

(** ** [GET /api/books] *)




Lemma int64_spec z : int64 z = true <-> - 2 ^ 63 <= z < 2 ^ 63.
Proof.
  unfold int64. rewrite andb_true_iff, Z.leb_le, Z.ltb_lt. tauto.
Qed.

Section ListRoute.

Context {backend : Backend}.

Lemma sorted_query_length db sort order rows :
  sorted_query db sort order = Some (inr rows) ->
  List.length rows = List.length db.
Proof.
  unfold sorted_query. destruct (Book_getattr sort) as [[c|]| |]; intros H;
    inversion H; subst; [| reflexivity].
  symmetry. apply Permutation_length. apply order_by_perm.
Qed.

(** The sorting step fails exactly when [sort] names an attribute of
    [Book] that is not a column. *)
Lemma sorted_query_fails db sort order e :
  sorted_query db sort order = Some (inl e) <->
  (e = AttributeError /\ Book_getattr sort = found PlainAttribute).
Proof.
  unfold sorted_query. destruct (Book_getattr sort) as [[c|]| |]; split;
    intros H; try discriminate; try (destruct H; discriminate).
  - inversion H. auto.
  - destruct H as [-> _]. reflexivity.
Qed.

(** A name that is no attribute of [Book] is ignored: the rows come in
    the table's own order. *)
Lemma sorted_query_unknown db sort order :
  Book_getattr sort = absent -> sorted_query db sort order = Some (inr db).
Proof. unfold sorted_query. intros ->. reflexivity. Qed.

Lemma Book_getattr_column sort c :
  column_of_name sort = Some c ->
  Book_getattr sort = found (InstrumentedAttribute c).
Proof. unfold Book_getattr. intros ->. reflexivity. Qed.

(** When [sort] names a column or no attribute at all, the sorting step
    gives a rearrangement of the table: in order of the column, or the
    table as it is. *)
Lemma sorted_query_accepts db sort order :
  Book_getattr sort = absent \/ (exists c, column_of_name sort = Some c) ->
  exists rows,
    sorted_query db sort order = Some (inr rows)
    /\ Permutation db rows
    /\ (forall c, column_of_name sort = Some c ->
          StronglySorted
            (ordered c (if String.eqb order "desc" then Desc else Asc)) rows)
    /\ (Book_getattr sort = absent -> rows = db).
Proof.
  intros [Ha|[c Hc]].
  - exists db. split; [apply sorted_query_unknown; exact Ha |].
    split; [apply Permutation_refl |]. split; [| reflexivity].
    intros c Hc. rewrite (Book_getattr_column _ _ Hc) in Ha. discriminate Ha.
  - exists (order_by c (if String.eqb order "desc" then Desc else Asc) db).
    split; [unfold sorted_query;
            rewrite (Book_getattr_column _ _ Hc); reflexivity |].
    split; [apply order_by_perm |]. split.
    + intros c' Hc'. assert (c' = c) by congruence. subst c'.
      apply order_by_sorted.
    + intros Ha. rewrite (Book_getattr_column _ _ Hc) in Ha. discriminate Ha.
Qed.

Lemma paginate_served rows page per_page :
  let p := fst (prepare_page_args page per_page) in
  let pp := snd (prepare_page_args page per_page) in
  pp < 2 ^ 63 -> (p - 1) * pp < 2 ^ 63 ->
  paginate rows page per_page =
  inr {| pg_page := p; pg_per_page := pp;
         pg_total := Z.of_nat (List.length rows);
         pg_items := limit pp (offset ((p - 1) * pp) rows) |}.
Proof.
  unfold paginate, prepare_page_args. simpl. intros H1 H2.
  assert (E1 : int64 (if per_page <? 1 then 20 else per_page) = true).
  { apply int64_spec. destruct (Z.ltb_spec per_page 1); lia. }
  assert (E2 : int64 (((if page <? 1 then 1 else page) - 1)
                      * (if per_page <? 1 then 20 else per_page)) = true).
  { apply int64_spec. split; [| exact H2].
    destruct (Z.ltb_spec per_page 1); destruct (Z.ltb_spec page 1); nia. }
  rewrite E1, E2. reflexivity.
Qed.

Lemma paginate_valid rows page per_page :
  1 <= page -> 1 <= per_page ->
  per_page < 2 ^ 63 -> (page - 1) * per_page < 2 ^ 63 ->
  paginate rows page per_page =
  inr {| pg_page := page; pg_per_page := per_page;
         pg_total := Z.of_nat (List.length rows);
         pg_items := limit per_page (offset ((page - 1) * per_page) rows) |}.
Proof.
  intros Hp Hpp H1 H2.
  pose proof (paginate_served rows page per_page) as H.
  unfold prepare_page_args in H. simpl in H.
  destruct (Z.ltb_spec page 1); [lia |].
  destruct (Z.ltb_spec per_page 1); [lia |]. apply H; assumption.
Qed.

(** The window [[(page-1)*per_page, page*per_page)] of a list. *)
Lemma window_spec (rows : list Book) page per_page :
  0 <= page - 1 -> 0 <= per_page ->
  let items := limit per_page (offset ((page - 1) * per_page) rows) in
  (forall k,
      nth_error items k =
        if (Z.of_nat k <? per_page)
        then nth_error rows (Z.to_nat ((page - 1) * per_page) + k)
        else None)
  /\ Z.of_nat (List.length items) <= per_page
  /\ (Z.of_nat (List.length rows) <= (page - 1) * per_page -> items = []).
Proof.
  intros Hp Hpp items. unfold items, limit, offset. repeat split.
  - intros k. rewrite nth_error_firstn, nth_error_skipn.
    destruct (Nat.ltb_spec k (Z.to_nat per_page));
      destruct (Z.ltb_spec (Z.of_nat k) per_page); try reflexivity; lia.
  - pose proof (firstn_le_length (Z.to_nat per_page)
      (skipn (Z.to_nat ((page - 1) * per_page)) rows)). lia.
  - intros Hlen. rewrite skipn_all2 by lia. apply firstn_nil.
Qed.

(** C1, as the code has it: for a page and a page size from 1 on that
    SQLite can bind ([per_page] and [(page-1)*per_page] below [2^63]), and
    a [sort] that names a column or no attribute of [Book], the books
    returned are the rows at positions [(page-1)*per_page] up to
    [page*per_page] of the full result, which is a rearrangement of the
    table in order of the column (the table itself for a name that is no
    attribute); so there are at most [per_page] of them, and a window past
    the end gives an empty list, with status 200. *)
Theorem get_books_window db args :
  let page := arg_int (arg_page args) 1 in
  let per_page := arg_int (arg_per_page args) 5 in
  let sort := arg_str (arg_sort args) "id" in
  let d := if String.eqb (arg_str (arg_order args) "asc") "desc"
           then Desc else Asc in
  1 <= page -> 1 <= per_page ->
  per_page < 2 ^ 63 -> (page - 1) * per_page < 2 ^ 63 ->
  Book_getattr sort = absent \/ (exists c, column_of_name sort = Some c) ->
  exists rows items,
    Permutation db rows
    /\ (forall c, column_of_name sort = Some c ->
          StronglySorted (ordered c d) rows)
    /\ (Book_getattr sort = absent -> rows = db)
    /\ get_books db args =
         Respond 200 (ListBody page per_page (Z.of_nat (List.length db))
                        (map to_dict items))
    /\ (forall k,
          nth_error items k =
            if (Z.of_nat k <? per_page)
            then nth_error rows (Z.to_nat ((page - 1) * per_page) + k)
            else None)
    /\ Z.of_nat (List.length items) <= per_page
    /\ (Z.of_nat (List.length rows) <= (page - 1) * per_page -> items = []).
Proof.
  intros page per_page sort d Hp Hpp H1 H2 Hsort.
  destruct (sorted_query_accepts db sort (arg_str (arg_order args) "asc")
              Hsort) as (rows & Hq & Hperm & Hsorted & Habs).
  exists rows, (limit per_page (offset ((page - 1) * per_page) rows)).
  split; [exact Hperm |]. split; [exact Hsorted |]. split; [exact Habs |].
  split.
  - unfold get_books. fold page per_page sort. rewrite Hq.
    rewrite paginate_valid by assumption. simpl.
    rewrite (Permutation_length Hperm). reflexivity.
  - apply window_spec; lia.
Qed.

(** C2: whenever [get_books] answers, it answers 200 and [total] is the
    number of rows of the table (the route has no filter), whatever [page]
    and [per_page] are; and it does answer when [sort] names a column or
    no attribute and the page and page size served can be bound. *)
Theorem get_books_total db args :
  let page := arg_int (arg_page args) 1 in
  let per_page := arg_int (arg_per_page args) 5 in
  let sort := arg_str (arg_sort args) "id" in
  let p := fst (prepare_page_args page per_page) in
  let pp := snd (prepare_page_args page per_page) in
  (forall status body,
      get_books db args = Respond status body ->
      status = 200
      /\ exists books,
           body = ListBody page per_page (Z.of_nat (List.length db)) books)
  /\ ((Book_getattr sort = absent \/ exists c, column_of_name sort = Some c) ->
      pp < 2 ^ 63 -> (p - 1) * pp < 2 ^ 63 ->
      exists books,
        get_books db args =
          Respond 200
            (ListBody page per_page (Z.of_nat (List.length db)) books)).
Proof.
  intros page per_page sort p pp. split.
  - intros status body. unfold get_books. fold page per_page sort.
    destruct (sorted_query db sort _) as [[e|rows]|] eqn:Hq;
      try discriminate.
    destruct (paginate rows page per_page) as [e|pg] eqn:Hpg;
      [discriminate |].
    intros H. inversion H. split; [reflexivity |].
    unfold paginate in Hpg. destruct (prepare_page_args page per_page).
    destruct (int64 _ && int64 _); [| discriminate].
    inversion Hpg. simpl. rewrite (sorted_query_length _ _ _ _ Hq).
    eexists. reflexivity.
  - intros Hsort H1 H2.
    destruct (sorted_query_accepts db sort (arg_str (arg_order args) "asc")
                Hsort) as (rows & Hq & Hperm & _).
    unfold get_books. fold page per_page sort. rewrite Hq.
    rewrite (paginate_served rows page per_page H1 H2). simpl.
    rewrite (Permutation_length Hperm). eexists. reflexivity.
Qed.

(** C3, as the code has it: a page or page size below 1 does not fail, as
    long as what is served in its place can be bound.  [paginate] serves
    page 1 in place of a page below 1 and 20 rows in place of a page size
    below 1, and the response repeats [page] and [per_page] as they were
    received. *)
Theorem get_books_nonpositive db args rows :
  let page := arg_int (arg_page args) 1 in
  let per_page := arg_int (arg_per_page args) 5 in
  let served_page := if page <=? 0 then 1 else page in
  let served_size := if per_page <=? 0 then 20 else per_page in
  page <= 0 \/ per_page <= 0 ->
  served_size < 2 ^ 63 -> (served_page - 1) * served_size < 2 ^ 63 ->
  sorted_query db (arg_str (arg_sort args) "id")
    (arg_str (arg_order args) "asc") = Some (inr rows) ->
  get_books db args =
    Respond 200
      (ListBody page per_page (Z.of_nat (List.length db))
         (map to_dict
            (firstn (Z.to_nat served_size)
               (skipn (Z.to_nat ((served_page - 1) * served_size)) rows)))).
Proof.
  intros page per_page served_page served_size _ H1 H2 Hq.
  unfold get_books. fold page per_page. rewrite Hq.
  assert (Ep : fst (prepare_page_args page per_page) = served_page).
  { unfold served_page. simpl. destruct (Z.ltb_spec page 1);
      destruct (Z.leb_spec page 0); auto; lia. }
  assert (Es : snd (prepare_page_args page per_page) = served_size).
  { unfold served_size. simpl. destruct (Z.ltb_spec per_page 1);
      destruct (Z.leb_spec per_page 0); auto; lia. }
  pose proof (paginate_served rows page per_page) as Hpg.
  rewrite Ep, Es in Hpg. rewrite (Hpg H1 H2). simpl.
  rewrite (sorted_query_length _ _ _ _ Hq). reflexivity.
Qed.

(** C4, where the code departs from it: [to_dict] is an attribute of
    [Book] and no column, so [hasattr] lets it through and the call of
    [asc()] or [desc()] on it raises. *)
Theorem get_books_sort_to_dict_raises db page per_page order :
  get_books db (mkListArgs page per_page (Some "to_dict") order)
  = Unhandled AttributeError.
Proof. reflexivity. Qed.

(** The part of C4 the code keeps: a name that is no attribute at all is
    ignored and the rows are paged in the table's own order. *)
Lemma get_books_unknown_sort db args :
  Book_getattr (arg_str (arg_sort args) "id") = absent ->
  get_books db args =
    match paginate db (arg_int (arg_page args) 1)
            (arg_int (arg_per_page args) 5) with
    | inl e => Unhandled e
    | inr pagination =>
        Respond 200
          (ListBody (arg_int (arg_page args) 1)
             (arg_int (arg_per_page args) 5)
             (Z.of_nat (List.length db))
             (map to_dict (pg_items pagination)))
    end.
Proof.
  intros Hn. unfold get_books. rewrite sorted_query_unknown by exact Hn.
  unfold paginate, prepare_page_args.
  destruct (int64 _ && int64 _); reflexivity.
Qed.


End ListRoute.

(** *** The list route on concrete tables *)

(** Twelve books, five to a page: page 3 has the last two. *)
Example get_books_page_3_of_12 :
  get_books (numbered_books 12) (mkListArgs (Some 3) (Some 5) None None)
  = Respond 200
      (ListBody 3 5 12 (map to_dict (skipn 10 (numbered_books 12)))).
Proof. reflexivity. Qed.

(** C1 as it is written fails.  Page [2^63] of five books a page is a
    valid page whose window lies beyond the table: its offset cannot be
    bound and the request ends in [OverflowError], not in an empty list.
    And with [sort=to_dict] there is no sorted result to take a page
    of. *)
Lemma get_books_window_overflows :
  get_books (numbered_books 12)
    (mkListArgs (Some (2 ^ 63)) (Some 5) None None)
  = Unhandled OverflowError
  /\ get_books (numbered_books 12)
       (mkListArgs (Some 3) (Some 5) (Some "to_dict") None)
     = Unhandled AttributeError.
Proof. split; reflexivity. Qed.

Lemma get_books_window_witness :
  exists rows items,
    Permutation (numbered_books 12) rows
    /\ (forall c, column_of_name "id" = Some c ->
          StronglySorted (ordered c Asc) rows)
    /\ (Book_getattr "id" = absent -> rows = numbered_books 12)
    /\ get_books (numbered_books 12) (mkListArgs (Some 3) (Some 5) None None)
       = Respond 200 (ListBody 3 5 12 (map to_dict items))
    /\ (forall k,
          nth_error items k =
            if (Z.of_nat k <? 5)
            then nth_error rows (Z.to_nat ((3 - 1) * 5) + k)
            else None)
    /\ Z.of_nat (List.length items) <= 5
    /\ (Z.of_nat (List.length rows) <= (3 - 1) * 5 -> items = []).
Proof.
  apply (get_books_window (numbered_books 12)
           (mkListArgs (Some 3) (Some 5) None None));
    [simpl; lia | simpl; lia | simpl; lia | simpl; lia |].
  right. exists col_id. reflexivity.
Defined.

(** C3 as it is written fails: with [per_page=-1] the response is not the
    one for the default page size.  It says [per_page] is -1 and carries
    six books where the default would carry five; with [page=0] it says
    [page] is 0. *)
Lemma get_books_nonpositive_not_defaulted :
  get_books (numbered_books 6) (mkListArgs None (Some (-1)) None None)
  = Respond 200 (ListBody 1 (-1) 6 (map to_dict (numbered_books 6)))
  /\ get_books (numbered_books 6) (mkListArgs None None None None)
     = Respond 200
         (ListBody 1 5 6 (map to_dict (firstn 5 (numbered_books 6))))
  /\ get_books (numbered_books 6) (mkListArgs (Some 0) None None None)
     = Respond 200
         (ListBody 0 5 6 (map to_dict (firstn 5 (numbered_books 6))))
  /\ get_books (numbered_books 6) (mkListArgs None (Some (-1)) None None)
     <> get_books (numbered_books 6) (mkListArgs None None None None)
  /\ get_books (numbered_books 6) (mkListArgs (Some 0) None None None)
     <> get_books (numbered_books 6) (mkListArgs None None None None).
Proof.
  repeat split; try reflexivity; intros H; vm_compute in H; discriminate H.
Qed.

Lemma get_books_nonpositive_witness :
  get_books (numbered_books 6) (mkListArgs None (Some (-1)) None None)
  = Respond 200
      (ListBody 1 (-1) 6
         (map to_dict (firstn 20 (skipn 0 (numbered_books 6))))).
Proof.
  apply (get_books_nonpositive (numbered_books 6)
           (mkListArgs None (Some (-1)) None None) (numbered_books 6));
    [right; simpl; lia | simpl; lia | simpl; lia | reflexivity].
Defined.



(** ** The routes on one book *)


Lemma find_row_some db i book :
  find_row db i = Some book -> In book db /\ id book = i.
Proof.
  unfold find_row. intros E. apply find_some in E.
  destruct E as [Hin Heq]. apply Z.eqb_eq in Heq. auto.
Qed.

Lemma query_get_found db i book :
  query_get db i = inr (Some book) ->
  int64 i = true /\ find_row db i = Some book.
Proof.
  unfold query_get. destruct (int64 i); [| discriminate].
  intros H. inversion H. auto.
Qed.

Lemma query_get_some db i book :
  query_get db i = inr (Some book) -> In book db /\ id book = i.
Proof.
  intros H. apply query_get_found in H. apply find_row_some. tauto.
Qed.




(** *** [POST /api/books] *)

(** What [create_book] answers to an object, case by case. *)
Lemma create_book_cases now db data :
  create_book now db (json_object data) =
  if negb (truthy (dict_get (j_title data)))
     || negb (truthy (dict_get (j_author data)))
  then (Respond 400 (ErrorBody "Title & Author required"), db)
  else
    let book := mkBook (next_id db) (dict_get (j_title data))
                  (dict_get (j_author data)) (dict_get (j_year data))
                  (dict_get (j_isbn data)) now in
    match dict_get (j_isbn data) with
    | Some (String c s) =>
        if existsb (has_isbn (String c s)) db
        then (Respond 400 (ErrorBody "ISBN already exists"), db)
        else if negb (binds (dict_get (j_year data)))
        then (Unhandled OverflowError, db)
        else if negb (int64 (next_id db))
        then (Unspecified, db)
        else (Respond 201 (CreatedBody "Book created" (to_dict book)),
              (db ++ [book])%list)
    | Some EmptyString =>
        if negb (binds (dict_get (j_year data)))
        then (Unhandled OverflowError, db)
        else if negb (int64 (next_id db))
        then (Unspecified, db)
        else if existsb (has_isbn "") db
        then (Unhandled IntegrityError, db)
        else (Respond 201 (CreatedBody "Book created" (to_dict book)),
              (db ++ [book])%list)
    | None =>
        if negb (binds (dict_get (j_year data)))
        then (Unhandled OverflowError, db)
        else if negb (int64 (next_id db))
        then (Unspecified, db)
        else (Respond 201 (CreatedBody "Book created" (to_dict book)),
              (db ++ [book])%list)
    end.
Proof.
  unfold create_book, commit_insert, table_accepts. simpl.
  destruct (dict_get (j_title data)) as [[|c t]|]; simpl; try reflexivity;
    destruct (dict_get (j_author data)) as [[|c' a]|]; simpl;
      try reflexivity;
    destruct (dict_get (j_isbn data)) as [[|c'' s]|]; simpl;
    destruct (binds (dict_get (j_year data))); simpl;
    destruct (int64 (next_id db)); simpl;
    try match goal with
        | |- context [existsb ?f db] => destruct (existsb f db)
        end;
    reflexivity.
Qed.

(** The example of the spec: a title and no author. *)
Example create_book_without_author now db :
  create_book now db (json_object (mkData (Some (Some "X")) None None None))
  = (Respond 400 (ErrorBody "Title & Author required"), db).
Proof. reflexivity. Qed.

(** C6, where the code departs from it: an empty isbn is falsy, so the
    check for an existing isbn is skipped.  The first such book is stored;
    the second one clashes with it in the table and the request dies with
    [IntegrityError] instead of answering 400. *)
Theorem create_book_empty_isbn_twice now now' :
  let data := json_object (mkData (Some (Some "A")) (Some (Some "B")) None
                             (Some (Some ""))) in
  let stored := mkBook 1 (Some "A") (Some "B") None (Some "") now in
  create_book now [] data
  = (Respond 201 (CreatedBody "Book created" (to_dict stored)), [stored])
  /\ create_book now' [stored] data = (Unhandled IntegrityError, [stored]).
Proof. split; reflexivity. Qed.

(** *** [PUT /api/books/<id>] *)

Lemma assign_fields_spec book data :
  let book' := assign_fields book data in
  title book' = match j_title data with Some v => v | None => title book end
  /\ author book'
     = match j_author data with Some v => v | None => author book end
  /\ year book' = match j_year data with Some v => v | None => year book end
  /\ isbn book' = match j_isbn data with Some v => v | None => isbn book end
  /\ id book' = id book
  /\ created_at book' = created_at book.
Proof.
  unfold assign_fields.
  destruct (j_title data), (j_author data), (j_year data), (j_isbn data);
    simpl; repeat split; reflexivity.
Qed.

Lemma find_row_replace_row db i j row :
  id row = i ->
  find_row (replace_row db i row) j =
  if j =? i then option_map (fun _ => row) (find_row db i)
  else find_row db j.
Proof.
  intros Hid. unfold find_row, replace_row.
  induction db as [|b db IH]; simpl.
  - destruct (j =? i); reflexivity.
  - rewrite IH. clear IH.
    destruct (Z.eqb_spec (id b) i) as [Hb|Hb];
      destruct (Z.eqb_spec j i) as [Hj|Hj]; subst;
      repeat match goal with
             | |- context [?x =? ?y] => destruct (Z.eqb_spec x y)
             end;
      simpl; congruence.
Qed.

Lemma query_get_replace_row db i j row :
  id row = i ->
  query_get (replace_row db i row) j =
  if j =? i
  then match query_get db i with
       | inr (Some _) => inr (Some row)
       | r => r
       end
  else query_get db j.
Proof.
  intros Hid. unfold query_get.
  destruct (Z.eqb_spec j i) as [->|Hj].
  - destruct (int64 i); [| reflexivity].
    rewrite (find_row_replace_row db i i row Hid), Z.eqb_refl.
    destruct (find_row db i); reflexivity.
  - destruct (int64 j); [| reflexivity].
    rewrite (find_row_replace_row db i j row Hid).
    destruct (Z.eqb_spec j i); [contradiction | reflexivity].
Qed.

Lemma in_other_rows db i b : In b (other_rows db i) <-> In b db /\ id b <> i.
Proof.
  unfold other_rows. rewrite filter_In, negb_true_iff, Z.eqb_neq. tauto.
Qed.

Lemma existsb_has_isbn s rows :
  existsb (has_isbn s) rows = true <-> exists b, In b rows /\ isbn b = Some s.
Proof.
  rewrite existsb_exists. unfold has_isbn. split.
  - intros (b & Hin & H). exists b. split; [exact Hin |].
    destruct (isbn b) as [s'|]; [| discriminate].
    apply String.eqb_eq in H. congruence.
  - intros (b & Hin & H). exists b. split; [exact Hin |].
    rewrite H. apply String.eqb_refl.
Qed.





(** ** [GET /api/books/search] *)

Local Open Scope string_scope.





Lemma sql_lower_app a b : sql_lower (a ++ b) = sql_lower a ++ sql_lower b.
Proof.
  induction a as [|c a IH]; simpl; [reflexivity |]. rewrite IH. reflexivity.
Qed.



Lemma append_assoc (a b c : string) : (a ++ b) ++ c = a ++ b ++ c.
Proof.
  induction a as [|x a IH]; simpl; [reflexivity |]. rewrite IH. reflexivity.
Qed.


(** *** What [LIKE] matches *)















End Part4Facts.

(** * The product list page: what the view does *)

Module Part5Facts.

Import Part5.

Local Open Scope string_scope.

Section Products.

Variable Product : Type.

(** C9: with the database out of reach the list page is still answered:
    the error is caught in the view, a message is flashed and the page
    shows no products. *)
Theorem index_database_unreachable DATABASE_URL fl :
  serve (index DATABASE_URL (@unreachable Product)) fl
  = (Respond 200 {| template := "index.html";
                    products := [];
                    db_type := detect_db_type DATABASE_URL;
                    db_url := DATABASE_URL |},
     (fl ++ [("danger", "Database connection failed!")])%list).
Proof. reflexivity. Qed.

(** With the database in reach the page shows its rows and nothing is
    flashed. *)
Lemma index_database_reachable DATABASE_URL (rows : list Product) fl :
  serve (index DATABASE_URL (reachable rows)) fl
  = (Respond 200 {| template := "index.html";
                    products := rows;
                    db_type := detect_db_type DATABASE_URL;
                    db_url := DATABASE_URL |}, fl).
Proof. reflexivity. Qed.

End Products.

Example detect_db_type_default :
  detect_db_type "sqlite:///default.db" = "SQLite".
Proof. reflexivity. Qed.

End Part5Facts.

(** * The book table: round trips and what the routes keep *)

Module Part4TableFacts.

Import Part4 Part4Table Part4Facts.

(** ** Keys *)

Lemma next_id_above db b : In b db -> id b < next_id db.
Proof.
  assert (Hmax : forall i ids j, In j (i :: ids) -> j <= fold_right Z.max i ids).
  { intros i ids. induction ids as [|k ids IH]; simpl; intros j.
    - intros [<-|[]]. lia.
    - intros [<-|[<-|Hj]]; [specialize (IH i (or_introl eq_refl)) | |
                           specialize (IH j (or_intror Hj))]; lia. }
  intros Hb. apply (in_map id) in Hb. unfold next_id.
  destruct (map id db) as [|i ids]; [contradiction |].
  specialize (Hmax i ids _ Hb). lia.
Qed.

Lemma next_id_fresh db : ~ In (next_id db) (map id db).
Proof.
  intros Hin. apply in_map_iff in Hin. destruct Hin as (b & Heq & Hb).
  pose proof (next_id_above db b Hb). lia.
Qed.

Lemma find_row_app db row i :
  find_row (db ++ [row]) i =
  match find_row db i with
  | Some b => Some b
  | None => if id row =? i then Some row else None
  end.
Proof.
  unfold find_row. induction db as [|x db IH]; simpl.
  - reflexivity.
  - destruct (id x =? i); [reflexivity | exact IH].
Qed.

Lemma find_row_fresh db : find_row db (next_id db) = None.
Proof.
  destruct (find_row db (next_id db)) as [b|] eqn:E; [| reflexivity].
  exfalso. apply find_row_some in E. destruct E as [Hin Hid].
  apply (next_id_fresh db). rewrite <- Hid. apply in_map. exact Hin.
Qed.

Lemma other_rows_app_new db row :
  ~ In (id row) (map id db) -> other_rows (db ++ [row]) (id row) = db.
Proof.
  intros Hfresh. unfold other_rows. rewrite filter_app. simpl.
  rewrite Z.eqb_refl. simpl. rewrite app_nil_r.
  induction db as [|x db IH]; simpl; [reflexivity |].
  simpl in Hfresh. destruct (Z.eqb_spec (id x) (id row)) as [E|E].
  - exfalso. apply Hfresh. left. exact E.
  - simpl. rewrite IH; [reflexivity |]. intros H. apply Hfresh. right. exact H.
Qed.

Lemma find_row_other_rows db i j :
  find_row (other_rows db i) j = if j =? i then None else find_row db j.
Proof.
  unfold find_row, other_rows. induction db as [|x db IH]; simpl.
  - destruct (j =? i); reflexivity.
  - destruct (Z.eqb_spec (id x) i) as [E|E]; simpl; rewrite ?IH;
      repeat match goal with
             | |- context [?a =? ?b] => destruct (Z.eqb_spec a b)
             end;
      congruence.
Qed.

(** What a successful [create_book] stored. *)
Lemma create_book_created now db data body db' :
  create_book now db data = (Respond 201 body, db') ->
  exists d,
    data = json_object d
    /\ let book := mkBook (next_id db) (dict_get (j_title d))
                     (dict_get (j_author d)) (dict_get (j_year d))
                     (dict_get (j_isbn d)) now in
       body = CreatedBody "Book created" (to_dict book)
       /\ db' = (db ++ [book])%list
       /\ table_accepts book db = true
       /\ int64 (next_id db) = true
       /\ truthy (title book) = true /\ truthy (author book) = true.
Proof.
  unfold create_book.
  destruct data as [|b|z|s|items|d];
    try (destruct (json_truthy _); discriminate).
  destruct (truthy (dict_get (j_title d))) eqn:Et; simpl; [| discriminate].
  destruct (truthy (dict_get (j_author d))) eqn:Ea; simpl; [| discriminate].
  destruct (truthy (dict_get (j_isbn d)) && _); [discriminate |].
  unfold commit_insert. simpl.
  destruct (binds (dict_get (j_year d))); simpl; [| discriminate].
  destruct (int64 (next_id db)) eqn:Eid; simpl; [| discriminate].
  destruct (table_accepts _ db) eqn:Eacc; [| discriminate].
  intros H. inversion H. exists d. simpl.
  repeat split; first [reflexivity | assumption].
Qed.

(** X1: the book a [POST] created is what [GET /api/books/<id>] returns
    under the new key, a key no other book had; every other key answers
    as before. *)
Theorem create_book_then_get now db data body db' :
  create_book now db data = (Respond 201 body, db') ->
  exists book,
    body = CreatedBody "Book created" (to_dict book)
    /\ db' = (db ++ [book])%list
    /\ ~ In (id book) (map id db)
    /\ get_book db' (id book) = Respond 200 (BookBody (to_dict book))
    /\ (forall i, i <> id book -> get_book db' i = get_book db i).
Proof.
  intros H. apply create_book_created in H.
  destruct H as (d & -> & Hbody & Hdb & _ & Hid & _). simpl in Hbody, Hdb.
  eexists. split; [exact Hbody |]. split; [exact Hdb |]. simpl.
  split; [apply next_id_fresh |]. subst db'. split.
  - unfold get_book, query_get. rewrite Hid, find_row_app, find_row_fresh.
    simpl. rewrite Z.eqb_refl. reflexivity.
  - intros i Hi. unfold get_book, query_get.
    destruct (int64 i); [| reflexivity]. rewrite find_row_app. simpl.
    destruct (find_row db i); [reflexivity |].
    destruct (Z.eqb_spec (next_id db) i); [congruence | reflexivity].
Qed.

Lemma create_book_then_get_witness :
  exists book,
    CreatedBody "Book created"
      (to_dict (mkBook 4 (Some "A") (Some "B") None None 7))
    = CreatedBody "Book created" (to_dict book)
    /\ (numbered_books 3 ++ [mkBook 4 (Some "A") (Some "B") None None 7])%list
       = (numbered_books 3 ++ [book])%list
    /\ ~ In (id book) (map id (numbered_books 3))
    /\ get_book
         (numbered_books 3 ++ [mkBook 4 (Some "A") (Some "B") None None 7])
         (id book)
       = Respond 200 (BookBody (to_dict book))
    /\ (forall i, i <> id book ->
          get_book
            (numbered_books 3
             ++ [mkBook 4 (Some "A") (Some "B") None None 7]) i
          = get_book (numbered_books 3) i).
Proof.
  apply (create_book_then_get 7 (numbered_books 3)
           (json_object
              (mkData (Some (Some "A")) (Some (Some "B")) None None))).
  reflexivity.
Defined.

(** X2: deleting the book a [POST] just created gives back the table as
    it was before the [POST]. *)
Theorem create_book_then_delete now db data body db' :
  create_book now db data = (Respond 201 body, db') ->
  delete_book db' (next_id db)
  = (Respond 200 (MessageBody "Book deleted"), db).
Proof.
  intros H. apply create_book_created in H.
  destruct H as (d & -> & _ & Hdb & _ & Hid & _). simpl in Hdb. subst db'.
  unfold delete_book, query_get.
  rewrite Hid, find_row_app, find_row_fresh. simpl. rewrite Z.eqb_refl.
  pose proof (next_id_fresh db) as Hfresh.
  rewrite (other_rows_app_new db (mkBook (next_id db) _ _ _ _ now) Hfresh).
  reflexivity.
Qed.

Lemma create_book_then_delete_witness :
  delete_book
    (numbered_books 3 ++ [mkBook 4 (Some "A") (Some "B") None None 7])
    (next_id (numbered_books 3))
  = (Respond 200 (MessageBody "Book deleted"), numbered_books 3).
Proof.
  apply (create_book_then_delete 7 (numbered_books 3)
           (json_object
              (mkData (Some (Some "A")) (Some (Some "B")) None None))
           (CreatedBody "Book created"
              (to_dict (mkBook 4 (Some "A") (Some "B") None None 7)))).
  reflexivity.
Defined.

(** X3: after [DELETE] of a book that exists its key answers 404, to
    [GET] and to a second [DELETE] alike, and every other key answers as
    before. *)
Theorem delete_book_then_get db i book :
  query_get db i = inr (Some book) ->
  exists db',
    delete_book db i = (Respond 200 (MessageBody "Book deleted"), db')
    /\ get_book db' i = Respond 404 (ErrorBody "Book not found")
    /\ delete_book db' i = (Respond 404 (ErrorBody "Book not found"), db')
    /\ (forall j, j <> i -> get_book db' j = get_book db j).
Proof.
  intros Hget. exists (other_rows db i).
  destruct (query_get_found _ _ _ Hget) as [Hb _].
  unfold delete_book at 1. rewrite Hget.
  unfold delete_book, get_book, query_get.
  rewrite Hb, !find_row_other_rows, Z.eqb_refl.
  repeat split. intros j Hj. destruct (int64 j); [| reflexivity].
  rewrite find_row_other_rows.
  destruct (Z.eqb_spec j i); [contradiction | reflexivity].
Qed.

Lemma delete_book_then_get_witness :
  exists db',
    delete_book (numbered_books 3) 2
    = (Respond 200 (MessageBody "Book deleted"), db')
    /\ get_book db' 2 = Respond 404 (ErrorBody "Book not found")
    /\ delete_book db' 2 = (Respond 404 (ErrorBody "Book not found"), db')
    /\ (forall j, j <> 2 -> get_book db' j = get_book (numbered_books 3) j).
Proof.
  apply (delete_book_then_get (numbered_books 3) 2
           (mkBook 2 (Some "Book") (Some "Author") (Some 2000) None 0)).
  reflexivity.
Defined.

(** ** [PUT] twice, and with nothing to change *)

Lemma assign_fields_twice book data :
  assign_fields (assign_fields book data) data = assign_fields book data.
Proof.
  unfold assign_fields.
  destruct (j_title data), (j_author data), (j_year data), (j_isbn data);
    reflexivity.
Qed.

Lemma assign_fields_nothing book :
  assign_fields book (mkData None None None None) = book.
Proof. reflexivity. Qed.

Lemma other_rows_replace_row db i row :
  id row = i -> other_rows (replace_row db i row) i = other_rows db i.
Proof.
  intros Hid. unfold other_rows, replace_row.
  induction db as [|x db IH]; simpl; [reflexivity |]. rewrite IH.
  destruct (Z.eqb_spec (id x) i) as [E|E]; simpl.
  - rewrite Hid, Z.eqb_refl. reflexivity.
  - destruct (Z.eqb_spec (id x) i); [contradiction | reflexivity].
Qed.

Lemma replace_row_twice db i row :
  id row = i -> replace_row (replace_row db i row) i row = replace_row db i row.
Proof.
  intros Hid. unfold replace_row. rewrite map_map. apply map_ext.
  intros x. destruct (Z.eqb_spec (id x) i) as [E|E].
  - rewrite Hid, Z.eqb_refl. reflexivity.
  - destruct (Z.eqb_spec (id x) i); [contradiction | reflexivity].
Qed.

Lemma map_id_replace_row db i row :
  id row = i -> map id (replace_row db i row) = map id db.
Proof.
  intros Hid. unfold replace_row. rewrite map_map. apply map_ext_in.
  intros x _. destruct (Z.eqb_spec (id x) i); congruence.
Qed.

Lemma in_replace_row db i row b :
  In b (replace_row db i row) ->
  b = row \/ (In b db /\ id b <> i).
Proof.
  unfold replace_row. intros H. apply in_map_iff in H.
  destruct H as (x & Hx & Hin).
  destruct (Z.eqb_spec (id x) i); subst; auto.
Qed.

(** Two rows of a table with the same key are the same row. *)
Lemma id_inj db a b :
  NoDup (map id db) -> In a db -> In b db -> id a = id b -> a = b.
Proof.
  induction db as [|x db IH]; simpl; [contradiction |].
  intros Hnd Ha Hb Heq. inversion Hnd as [|? ? Hx Hnd']. subst.
  destruct Ha as [->|Ha]; destruct Hb as [->|Hb]; auto.
  - exfalso. apply Hx. rewrite Heq. apply in_map. exact Hb.
  - exfalso. apply Hx. rewrite <- Heq. apply in_map. exact Ha.
Qed.

Lemma replace_row_same db book :
  NoDup (map id db) -> In book db -> replace_row db (id book) book = db.
Proof.
  intros Hnd Hin. unfold replace_row.
  rewrite <- (map_id db) at 2. apply map_ext_in. intros x Hx.
  destruct (Z.eqb_spec (id x) (id book)) as [E|E]; [| reflexivity].
  symmetry. apply (id_inj db); assumption.
Qed.

(** A row of a well-formed table passes the constraints against the
    other rows. *)
Lemma table_ok_accepts db book :
  table_ok db -> In book db ->
  table_accepts book (other_rows db (id book)) = true.
Proof.
  intros (Hnd & Hnn & Hu) Hin. unfold table_accepts.
  destruct (Hnn book Hin) as [Ht Ha].
  destruct (title book) as [t|]; [| congruence].
  destruct (author book) as [a|]; [| congruence].
  destruct (isbn book) as [k|] eqn:Es; [| reflexivity].
  apply negb_true_iff. apply not_true_is_false. intros Hex.
  apply existsb_has_isbn in Hex. destruct Hex as (o & Ho & Hs).
  apply in_other_rows in Ho. destruct Ho as [Ho Hne].
  apply Hne. apply (Hu o book k); assumption.
Qed.

(** X4: a [PUT] that succeeded, sent again, gets the same answer and
    leaves the table as the first one left it. *)
Theorem update_book_twice db i data body db' :
  update_book db i data = (Respond 200 body, db') ->
  update_book db' i data = (Respond 200 body, db').
Proof.
  unfold update_book at 1.
  destruct (query_get db i) as [e|[book|]] eqn:Hget; try discriminate.
  destruct data as [|b|z|s|items|d]; try discriminate.
  - destruct (holds_a_key (json_string s)) eqn:Hk; [discriminate |].
    intros H. inversion H. subst body db'.
    unfold update_book. rewrite Hget, Hk. reflexivity.
  - destruct (holds_a_key (json_array items)) eqn:Hk; [discriminate |].
    intros H. inversion H. subst body db'.
    unfold update_book. rewrite Hget, Hk. reflexivity.
  - unfold commit_update.
    destruct (binds (dict_get (j_year d))) eqn:Hb; simpl; [| discriminate].
    destruct (table_accepts _ _) eqn:Hacc; [| discriminate].
    intros H. inversion H. subst body db'. clear H.
    destruct (query_get_some _ _ _ Hget) as [_ Hi].
    destruct (assign_fields_spec book d) as (_ & _ & _ & _ & Hid & _).
    assert (Hid' : id (assign_fields book d) = i) by congruence.
    unfold update_book, commit_update.
    rewrite (query_get_replace_row db i i _ Hid'), Z.eqb_refl, Hget.
    rewrite Hb. simpl.
    rewrite assign_fields_twice, (other_rows_replace_row db i _ Hid'), Hacc.
    rewrite (replace_row_twice db i _ Hid'). reflexivity.
Qed.

Lemma update_book_twice_witness :
  update_book
    (replace_row (numbered_books 3) 2
       (mkBook 2 (Some "Book") (Some "Author") (Some 2001) None 0))
    2 (json_object (mkData None None (Some (Some 2001)) None))
  = (Respond 200
       (BookBody (to_dict (mkBook 2 (Some "Book") (Some "Author")
                             (Some 2001) None 0))),
     replace_row (numbered_books 3) 2
       (mkBook 2 (Some "Book") (Some "Author") (Some 2001) None 0)).
Proof.
  apply (update_book_twice (numbered_books 3) 2
           (json_object (mkData None None (Some (Some 2001)) None))).
  reflexivity.
Defined.

(** X5: on a well-formed table a [PUT] with the empty object [{}]
    answers 200 with the book as it is and changes nothing. *)
Theorem update_book_empty_body db i book :
  table_ok db ->
  query_get db i = inr (Some book) ->
  update_book db i (json_object (mkData None None None None))
  = (Respond 200 (BookBody (to_dict book)), db).
Proof.
  intros Hok Hget. destruct (query_get_some _ _ _ Hget) as [Hin Hi].
  unfold update_book, commit_update. rewrite Hget, assign_fields_nothing.
  subst i. simpl.
  rewrite (table_ok_accepts db book Hok Hin).
  rewrite (replace_row_same db book (proj1 Hok) Hin). reflexivity.
Qed.

Lemma table_ok_numbered n : table_ok (numbered_books n).
Proof.
  unfold numbered_books. split; [| split].
  - rewrite map_map. simpl.
    apply Finite.Injective_map_NoDup; [| apply seq_NoDup].
    intros a b H. apply Nat2Z.inj. exact H.
  - intros b Hb. apply in_map_iff in Hb. destruct Hb as (k & <- & _).
    simpl. split; discriminate.
  - intros b1 b2 s Hb1 _ Hs. apply in_map_iff in Hb1.
    destruct Hb1 as (k & <- & _). discriminate Hs.
Qed.

Lemma update_book_empty_body_witness :
  update_book (numbered_books 3) 2
    (json_object (mkData None None None None))
  = (Respond 200
       (BookBody (to_dict (mkBook 2 (Some "Book") (Some "Author")
                             (Some 2000) None 0))),
     numbered_books 3).
Proof.
  apply (update_book_empty_body (numbered_books 3) 2
           (mkBook 2 (Some "Book") (Some "Author") (Some 2000) None 0)).
  - apply table_ok_numbered.
  - reflexivity.
Defined.

(** ** The routes keep the table well-formed *)

Lemma table_ok_nil : table_ok [].
Proof.
  split; [constructor |]. split; intros; contradiction.
Qed.

Lemma NoDup_map_filter (f : Book -> bool) db :
  NoDup (map id db) -> NoDup (map id (filter f db)).
Proof.
  induction db as [|x db IH]; simpl; [auto |].
  intros Hnd. inversion Hnd as [|? ? Hx Hnd']. subst.
  destruct (f x); simpl; [| auto].
  constructor; [| auto].
  intros Hin. apply Hx. apply in_map_iff in Hin.
  destruct Hin as (b & Hb & Hin). apply filter_In in Hin.
  rewrite <- Hb. apply in_map. tauto.
Qed.

Lemma table_ok_other_rows db i : table_ok db -> table_ok (other_rows db i).
Proof.
  intros (Hnd & Hnn & Hu). split; [| split].
  - apply NoDup_map_filter. exact Hnd.
  - intros b Hb. apply in_other_rows in Hb. apply Hnn. tauto.
  - intros b1 b2 s H1 H2. apply in_other_rows in H1, H2.
    apply Hu; tauto.
Qed.

Lemma table_accepts_inv row others :
  table_accepts row others = true ->
  title row <> None /\ author row <> None
  /\ (forall s o, isbn row = Some s -> In o others -> isbn o <> Some s).
Proof.
  unfold table_accepts.
  destruct (title row) as [t|]; [| discriminate].
  destruct (author row) as [a|]; [| discriminate].
  intros H. split; [discriminate |]. split; [discriminate |].
  intros s o Hs Ho Hos. rewrite Hs in H.
  apply negb_true_iff in H.
  assert (existsb (has_isbn s) others = true)
    by (apply existsb_has_isbn; eauto).
  congruence.
Qed.

Lemma table_ok_append db row :
  table_ok db -> ~ In (id row) (map id db) ->
  table_accepts row db = true -> table_ok (db ++ [row])%list.
Proof.
  intros (Hnd & Hnn & Hu) Hfresh Hacc.
  apply table_accepts_inv in Hacc. destruct Hacc as (Ht & Ha & Hisbn).
  split; [| split].
  - rewrite map_app. simpl.
    apply (Permutation_NoDup (Permutation_cons_append (map id db) (id row))).
    constructor; assumption.
  - intros b Hb. apply in_app_or in Hb.
    destruct Hb as [Hb|[<-|[]]]; auto.
  - intros b1 b2 s H1 H2 Hs1 Hs2.
    apply in_app_or in H1, H2.
    destruct H1 as [H1|[<-|[]]]; destruct H2 as [H2|[<-|[]]].
    + apply (Hu b1 b2 s); assumption.
    + exfalso. apply (Hisbn s b1 Hs2 H1 Hs1).
    + exfalso. apply (Hisbn s b2 Hs1 H2 Hs2).
    + reflexivity.
Qed.

Lemma table_ok_replace_row db i row :
  table_ok db -> id row = i ->
  table_accepts row (other_rows db i) = true ->
  table_ok (replace_row db i row).
Proof.
  intros (Hnd & Hnn & Hu) Hid Hacc.
  apply table_accepts_inv in Hacc. destruct Hacc as (Ht & Ha & Hisbn).
  split; [| split].
  - rewrite (map_id_replace_row db i row Hid). exact Hnd.
  - intros b Hb. apply in_replace_row in Hb.
    destruct Hb as [->|[Hb _]]; auto.
  - intros b1 b2 s H1 H2 Hs1 Hs2.
    apply in_replace_row in H1, H2.
    destruct H1 as [->|[H1 N1]]; destruct H2 as [->|[H2 N2]].
    + reflexivity.
    + exfalso. apply (Hisbn s b2 Hs1); [| exact Hs2].
      apply in_other_rows. auto.
    + exfalso. apply (Hisbn s b1 Hs2); [| exact Hs1].
      apply in_other_rows. auto.
    + apply (Hu b1 b2 s); assumption.
Qed.

(** X6: whatever the request, [create_book], [update_book], [delete_book]
    and [init_db] take a well-formed table (keys distinct, no [NULL] title
    or author, no isbn twice) to a well-formed table. *)
Theorem routes_keep_table_ok db now data i data' j clock :
  table_ok db ->
  table_ok (snd (create_book now db data))
  /\ table_ok (snd (update_book db i data'))
  /\ table_ok (snd (delete_book db j))
  /\ table_ok (init_db clock db).
Proof.
  intros Hok. split; [| split; [| split]].
  - unfold create_book.
    destruct data as [|b|z|s|items|d];
      try (destruct (json_truthy _); exact Hok).
    destruct (_ || _); [exact Hok |].
    destruct (_ && _); [exact Hok |].
    unfold commit_insert. simpl.
    destruct (negb (binds _)); [exact Hok |].
    destruct (negb (int64 _)); [exact Hok |].
    destruct (table_accepts _ db) eqn:Hacc; [| exact Hok]. simpl.
    apply table_ok_append; [exact Hok | apply next_id_fresh | exact Hacc].
  - unfold update_book.
    destruct (query_get db i) as [e|[book|]] eqn:Hget; try exact Hok.
    destruct data' as [|b|z|s|items|d]; try exact Hok;
      try (destruct (holds_a_key _); exact Hok).
    unfold commit_update.
    destruct (negb (binds _)); [exact Hok |].
    destruct (table_accepts _ _) eqn:Hacc; [| exact Hok]. simpl.
    apply table_ok_replace_row; [exact Hok | | exact Hacc].
    destruct (assign_fields_spec book d) as (_ & _ & _ & _ & Hid & _).
    destruct (query_get_some _ _ _ Hget). congruence.
  - unfold delete_book. destruct (query_get db j) as [e|[book|]];
      try exact Hok.
    simpl. apply table_ok_other_rows. exact Hok.
  - unfold init_db. destruct (_ =? 0); [| exact Hok].
    split; [| split].
    + simpl. repeat constructor; simpl; intuition lia.
    + intros b Hb. simpl in Hb.
      repeat (destruct Hb as [<-|Hb]; [split; discriminate |]).
      contradiction.
    + intros b1 b2 s Hb1 _ Hs. simpl in Hb1.
      repeat (destruct Hb1 as [<-|Hb1]; [discriminate Hs |]).
      contradiction.
Qed.

Lemma routes_keep_table_ok_witness :
  table_ok (snd (create_book 7 (numbered_books 3)
                   (json_object
                      (mkData (Some (Some "A")) (Some (Some "B")) None
                         (Some (Some "isbn-1"))))))
  /\ table_ok (snd (update_book (numbered_books 3) 2
                      (json_object
                         (mkData None None None (Some (Some "isbn-2"))))))
  /\ table_ok (snd (delete_book (numbered_books 3) 1))
  /\ table_ok (init_db (fun _ => 0) (numbered_books 3)).
Proof.
  apply (routes_keep_table_ok (numbered_books 3)).
  apply table_ok_numbered.
Defined.

(** X7: [update_book] does not ask for a non-empty title as [create_book]
    does: on a well-formed table a [PUT] with [{"title": ""}] is answered
    200 and the empty title is what [GET] then shows, while a [POST] with
    that title is answered 400. *)
Theorem update_book_stores_empty_title db i book now a y s :
  table_ok db ->
  query_get db i = inr (Some book) ->
  exists book',
    title book' = Some ""%string
    /\ update_book db i
         (json_object (mkData (Some (Some ""%string)) None None None))
       = (Respond 200 (BookBody (to_dict book')), replace_row db i book')
    /\ get_book (replace_row db i book') i
       = Respond 200 (BookBody (to_dict book'))
    /\ create_book now db
         (json_object (mkData (Some (Some ""%string)) a y s))
       = (Respond 400 (ErrorBody "Title & Author required"), db).
Proof.
  intros Hok Hget. destruct (query_get_some _ _ _ Hget) as [Hin Hi].
  pose proof (table_ok_accepts db book Hok Hin) as Hacc. rewrite Hi in Hacc.
  exists (assign_fields book (mkData (Some (Some ""%string)) None None None)).
  split; [reflexivity |]. split; [| split].
  - unfold update_book, commit_update. rewrite Hget. simpl.
    replace (table_accepts _ _) with true; [reflexivity |].
    symmetry. unfold table_accepts in *. simpl.
    destruct (title book); [| discriminate Hacc]. exact Hacc.
  - unfold get_book.
    rewrite (query_get_replace_row db i i
               (assign_fields book
                  (mkData (Some (Some ""%string)) None None None)) Hi),
      Z.eqb_refl, Hget.
    reflexivity.
  - reflexivity.
Qed.

Lemma update_book_stores_empty_title_witness :
  exists book',
    title book' = Some ""%string
    /\ update_book (numbered_books 3) 2
         (json_object (mkData (Some (Some ""%string)) None None None))
       = (Respond 200 (BookBody (to_dict book')),
          replace_row (numbered_books 3) 2 book')
    /\ get_book (replace_row (numbered_books 3) 2 book') 2
       = Respond 200 (BookBody (to_dict book'))
    /\ create_book 7 (numbered_books 3)
         (json_object
            (mkData (Some (Some ""%string)) (Some (Some "B")) None None))
       = (Respond 400 (ErrorBody "Title & Author required"),
          numbered_books 3).
Proof.
  apply (update_book_stores_empty_title (numbered_books 3) 2
           (mkBook 2 (Some "Book") (Some "Author") (Some 2000) None 0)).
  - apply table_ok_numbered.
  - reflexivity.
Defined.

(** ** Walking the pages of the list *)

Section Pages.

Context {backend : Backend}.

Lemma sorted_query_perm db sort order rows :
  sorted_query db sort order = Some (inr rows) -> Permutation db rows.
Proof.
  unfold sorted_query. destruct (Book_getattr sort) as [[c|]| |]; intros H;
    inversion H; subst; [apply order_by_perm | apply Permutation_refl].
Qed.

Lemma get_books_page db p per_page sort order rows :
  1 <= p -> 1 <= per_page ->
  per_page < 2 ^ 63 -> (p - 1) * per_page < 2 ^ 63 ->
  sorted_query db (arg_str sort "id") (arg_str order "asc")
  = Some (inr rows) ->
  books_of (get_books db (mkListArgs (Some p) (Some per_page) sort order))
  = map to_dict
      (firstn (Z.to_nat per_page)
         (skipn (Z.to_nat ((p - 1) * per_page)) rows)).
Proof.
  intros Hp Hpp H1 H2 Hq. unfold get_books.
  cbv beta iota zeta delta [arg_page arg_per_page arg_sort arg_order arg_int].
  rewrite Hq. rewrite paginate_valid by assumption. reflexivity.
Qed.

Lemma firstn_more (rows : list Book) n m :
  (firstn n rows ++ firstn m (skipn n rows))%list = firstn (n + m) rows.
Proof.
  rewrite firstn_skipn_comm.
  rewrite <- (firstn_skipn n (firstn (n + m) rows)) at 2.
  f_equal. rewrite firstn_firstn. f_equal. lia.
Qed.

(** X8: a client that asks for pages 1 to [n] of a fixed size, all of
    them within what SQLite can bind, gets, put together, the first
    [n * per_page] rows of the sorted result: no book twice, none
    skipped; once the pages reach the end of the table it has every
    book. *)
Theorem walk_pages_covers db n per_page sort order rows :
  1 <= per_page ->
  per_page < 2 ^ 63 ->
  Z.of_nat n * per_page < 2 ^ 63 ->
  sorted_query db (arg_str sort "id") (arg_str order "asc")
  = Some (inr rows) ->
  walk_pages db n per_page sort order
  = map to_dict (firstn (n * Z.to_nat per_page) rows)
  /\ ((List.length db <= n * Z.to_nat per_page)%nat ->
      walk_pages db n per_page sort order = map to_dict rows
      /\ Permutation (map to_dict db)
           (walk_pages db n per_page sort order)).
Proof.
  intros Hpp Hmax Hn Hq.
  assert (Hwalk : walk_pages db n per_page sort order
                  = map to_dict (firstn (n * Z.to_nat per_page) rows)).
  { unfold walk_pages. induction n as [|n IH].
    - reflexivity.
    - rewrite seq_S, map_app, concat_app, IH by nia.
      cbn [map List.concat]. rewrite app_nil_r.
      rewrite (get_books_page db (Z.of_nat (1 + n)) per_page sort order rows)
        by (assumption || nia).
      rewrite <- map_app.
      replace (Z.to_nat ((Z.of_nat (1 + n) - 1) * per_page))
        with (n * Z.to_nat per_page)%nat by nia.
      rewrite firstn_more. f_equal. f_equal. lia. }
  split; [exact Hwalk |].
  intros Hlen. rewrite Hwalk.
  pose proof (sorted_query_perm _ _ _ _ Hq) as Hperm.
  rewrite firstn_all2 by (rewrite <- (Permutation_length Hperm); exact Hlen).
  split; [reflexivity | apply Permutation_map; exact Hperm].
Qed.

End Pages.

Lemma walk_pages_covers_witness :
  walk_pages (numbered_books 12) 3 5 None None
  = map to_dict (firstn (3 * Z.to_nat 5) (numbered_books 12))
  /\ ((List.length (numbered_books 12) <= 3 * Z.to_nat 5)%nat ->
      walk_pages (numbered_books 12) 3 5 None None
      = map to_dict (numbered_books 12)
      /\ Permutation (map to_dict (numbered_books 12))
           (walk_pages (numbered_books 12) 3 5 None None)).
Proof.
  apply (walk_pages_covers (numbered_books 12) 3 5 None None
           (numbered_books 12)); [lia | lia | lia | reflexivity].
Defined.

(** ** Keys without ties: the engine has no choice *)

Lemma in_order_both c d a b :
  in_order c d a b = true -> in_order c d b a = true ->
  col_compare c a b = Eq.
Proof.
  unfold in_order. rewrite (col_compare_opp c a b).
  destruct d, (col_compare c a b); simpl; congruence.
Qed.

(** A list has one arrangement in order of a key that no two of its rows
    share. *)
Lemma sorted_arrangement_unique c d (l1 l2 : list Book) :
  (forall a b, In a l1 -> In b l1 -> col_compare c a b = Eq -> a = b) ->
  StronglySorted (ordered c d) l1 ->
  StronglySorted (ordered c d) l2 ->
  Permutation l1 l2 -> l1 = l2.
Proof.
  revert l2. induction l1 as [|x l1 IH]; intros l2 Hkey H1 H2 Hperm.
  - apply Permutation_nil in Hperm. congruence.
  - destruct l2 as [|y l2].
    + apply Permutation_sym, Permutation_nil in Hperm. discriminate Hperm.
    + apply StronglySorted_inv in H1. destruct H1 as [H1 Hx].
      apply StronglySorted_inv in H2. destruct H2 as [H2 Hy].
      rewrite Forall_forall in Hx, Hy.
      assert (Exy : x = y).
      { assert (Hyin : In y (x :: l1))
          by (apply (Permutation_in _ (Permutation_sym Hperm)); left;
              reflexivity).
        assert (Hxin : In x (y :: l2))
          by (apply (Permutation_in _ Hperm); left; reflexivity).
        destruct Hyin as [E|Hyin]; [exact E |].
        destruct Hxin as [E|Hxin]; [congruence |].
        apply Hkey; [left; reflexivity | right; exact Hyin |].
        apply (in_order_both c d); [apply Hx | apply Hy]; assumption. }
      subst y. f_equal. apply IH; try assumption.
      * intros a b Ha Hb. apply Hkey; right; assumption.
      * apply (Permutation_cons_inv Hperm).
Qed.

(** X9: when no two books share a value in the sort column (as for [id],
    the default, on any table whose keys are distinct), every database
    engine answers [GET /api/books] alike. *)
Theorem get_books_engine_independent (b1 b2 : Backend) db args c :
  column_of_name (arg_str (arg_sort args) "id") = Some c ->
  (forall a b, In a db -> In b db -> col_compare c a b = Eq -> a = b) ->
  get_books (backend := b1) db args = get_books (backend := b2) db args.
Proof.
  intros Hc Hkey. unfold get_books, sorted_query, Book_getattr.
  rewrite Hc.
  set (d := if String.eqb (arg_str (arg_order args) "asc") "desc"
            then Desc else Asc).
  assert (E : order_by (Backend := b1) c d db
              = order_by (Backend := b2) c d db).
  { apply (sorted_arrangement_unique c d).
    - intros a b Ha Hb. apply Hkey;
        eapply Permutation_in;
        try (apply Permutation_sym; apply (order_by_perm (Backend := b1)));
        eassumption.
    - apply order_by_sorted.
    - apply order_by_sorted.
    - eapply perm_trans;
        [apply Permutation_sym; apply order_by_perm | apply order_by_perm]. }
  rewrite E. reflexivity.
Qed.

Lemma col_id_distinct db :
  NoDup (map id db) ->
  forall a b, In a db -> In b db -> col_compare col_id a b = Eq -> a = b.
Proof.
  intros Hnd a b Ha Hb H. simpl in H. apply Z.compare_eq in H.
  apply (id_inj db); assumption.
Qed.

Lemma get_books_engine_independent_witness :
  get_books (backend := sorter_backend) (numbered_books 6)
    (mkListArgs (Some 2) (Some 4) None (Some "desc"))
  = get_books (backend := sqlite_backend) (numbered_books 6)
      (mkListArgs (Some 2) (Some 4) None (Some "desc")).
Proof.
  apply (get_books_engine_independent sorter_backend sqlite_backend
           (numbered_books 6)
           (mkListArgs (Some 2) (Some 4) None (Some "desc")) col_id).
  - reflexivity.
  - apply col_id_distinct. apply (proj1 (table_ok_numbered 6)).
Defined.

(** ** The search *)



Lemma sql_lower_empty s s' :
  sql_lower s = sql_lower s' -> truthy (Some s) = truthy (Some s').
Proof. destruct s, s'; simpl; intros H; congruence. Qed.

Lemma ilike_pattern_case column q q' :
  sql_lower q = sql_lower q' ->
  ilike column ("%" ++ q ++ "%") = ilike column ("%" ++ q' ++ "%").
Proof.
  intros H. unfold ilike. destruct column as [s|]; [| reflexivity].
  simpl. rewrite !sql_lower_app, H. reflexivity.
Qed.

(** X11: the case of the letters in [q] and [author] does not matter:
    two searches whose arguments differ only in case give the same
    answer. *)
Theorem search_books_ignores_case db q q' a a' y :
  sql_lower q = sql_lower q' ->
  sql_lower a = sql_lower a' ->
  search_books db (mkSearchArgs (Some q) (Some a) y)
  = search_books db (mkSearchArgs (Some q') (Some a') y).
Proof.
  intros Hq Ha. unfold search_books.
  cbn [arg_q arg_author arg_year arg_str].
  rewrite (sql_lower_empty _ _ Hq), (sql_lower_empty _ _ Ha).
  assert (E1 : forall rows,
             filter (fun b => ilike (title b) ("%" ++ q ++ "%")) rows
             = filter (fun b => ilike (title b) ("%" ++ q' ++ "%")) rows).
  { intros rows. apply filter_ext. intros b.
    apply ilike_pattern_case. exact Hq. }
  assert (E2 : forall rows,
             filter (fun b => ilike (author b) ("%" ++ a ++ "%")) rows
             = filter (fun b => ilike (author b) ("%" ++ a' ++ "%")) rows).
  { intros rows. apply filter_ext. intros b.
    apply ilike_pattern_case. exact Ha. }
  rewrite E1. destruct (truthy (Some q')), (truthy (Some a'));
    rewrite ?E2; reflexivity.
Qed.

Lemma search_books_ignores_case_witness :
  search_books (init_db (fun _ => 0) [])
    (mkSearchArgs (Some "PYTHON") (Some "eric") (year_int 2019))
  = search_books (init_db (fun _ => 0) [])
      (mkSearchArgs (Some "python") (Some "Eric") (year_int 2019)).
Proof.
  apply (search_books_ignores_case (init_db (fun _ => 0) [])
           "PYTHON" "python" "eric" "Eric" (year_int 2019));
    reflexivity.
Defined.

(** ** Seeding *)

(** X12: [init_db] writes the sample books into an empty table only: a
    table with a book in it is left as it is, so running [init_db] again
    changes nothing. *)
Theorem init_db_seeds_once clock clock' db :
  (db <> [] -> init_db clock db = db)
  /\ init_db clock' (init_db clock db) = init_db clock db.
Proof.
  split.
  - intros Hne. destruct db; [contradiction | reflexivity].
  - destruct db; reflexivity.
Qed.

Lemma init_db_seeds_once_witness :
  init_db (fun _ => 0) (numbered_books 2) = numbered_books 2.
Proof.
  apply (proj1 (init_db_seeds_once (fun _ => 0) (fun _ => 0)
                  (numbered_books 2))).
  discriminate.
Defined.

End Part4TableFacts.


(** * The product page: adding, deleting, timing, seeding *)

Module Part5RoutesFacts.

Import Part5 Part5Routes.

Local Open Scope string_scope.

Section Inventory.

Variable Float : Type.
Variable Seconds : Type.

Local Abbreviation Row := (Product Float).

Lemma product_next_id_above (rows : list Row) p :
  In p rows -> (id p < next_product_id rows)%Z.
Proof.
  assert (Hmax : forall i ids j,
             In j (i :: ids) -> (j <= fold_right Z.max i ids)%Z).
  { intros i ids. induction ids as [|k ids IH]; simpl; intros j.
    - intros [<-|[]]. lia.
    - intros [<-|[<-|Hj]]; [specialize (IH i (or_introl eq_refl)) | |
                           specialize (IH j (or_intror Hj))]; lia. }
  intros Hp. apply (in_map id) in Hp. unfold next_product_id.
  destruct (map id rows) as [|i ids]; [contradiction |].
  specialize (Hmax i ids _ Hp). lia.
Qed.

Lemma find_next_id (rows : list Row) :
  find (fun p => (id p =? next_product_id rows)%Z) rows = None.
Proof.
  destruct (find _ rows) as [p|] eqn:E; [| reflexivity].
  apply find_some in E. destruct E as [Hin Heq].
  apply Z.eqb_eq in Heq. pose proof (product_next_id_above rows p Hin). lia.
Qed.

Lemma filter_next_id (rows : list Row) :
  filter (fun p => negb (id p =? next_product_id rows)%Z) rows = rows.
Proof.
  assert (H : forall k l, (forall p, In p l -> (id p < k)%Z) ->
                          filter (fun p : Row => negb (id p =? k)%Z) l = l).
  { intros k l. induction l as [|x l IH]; intros Hlt; simpl; [reflexivity |].
    pose proof (Hlt x (or_introl eq_refl)).
    destruct (Z.eqb_spec (id x) k); [lia |]. simpl.
    rewrite IH; [reflexivity |]. intros p Hp. apply Hlt. right. exact Hp. }
  apply H. apply product_next_id_above.
Qed.

Lemma find_append (f : Row -> bool) rows rows' :
  find f (rows ++ rows')%list
  = match find f rows with
    | Some p => Some p
    | None => find f rows'
    end.
Proof.
  induction rows as [|x rows IH]; simpl; [reflexivity |].
  destruct (f x); [reflexivity | exact IH].
Qed.

(** A row whose key is above every key of the table goes to its end. *)
Lemma insert_row_last (row : Row) rows :
  (forall p, In p rows -> (id p < id row)%Z) ->
  insert_row row rows = (rows ++ [row])%list.
Proof.
  induction rows as [|r rows IH]; intros Hlt; simpl; [reflexivity |].
  pose proof (Hlt r (or_introl eq_refl)).
  destruct (Z.ltb_spec (id row) (id r)); [lia |].
  rewrite IH; [reflexivity |]. intros p Hp. apply Hlt. right. exact Hp.
Qed.

Lemma insert_row_next (rows : list Row) n x st d :
  insert_row (mkProduct (next_product_id rows) n x st d) rows
  = (rows ++ [mkProduct (next_product_id rows) n x st d])%list.
Proof. apply insert_row_last. intros p Hp. apply product_next_id_above, Hp. Qed.

Lemma int64_true z : (- 2 ^ 63 <= z < 2 ^ 63)%Z -> int64 z = true.
Proof.
  intros H. unfold int64. apply andb_true_iff. split.
  - apply Z.leb_le. lia.
  - apply Z.ltb_lt. lia.
Qed.

Lemma int64_false z : ~ (- 2 ^ 63 <= z < 2 ^ 63)%Z -> int64 z = false.
Proof.
  intros H. unfold int64. apply andb_false_iff.
  destruct (Z.leb_spec (- 2 ^ 63) z); [| left; reflexivity].
  right. apply Z.ltb_ge. lia.
Qed.

(** What a [POST] of a form that converts does to a table in reach. *)
Lemma add_product_reachable (form : AddForm Float) n drawn rows fl :
  form_name _ form = Some n ->
  form_price _ form <> float_missing ->
  form_price _ form <> float_invalid ->
  form_stock _ form <> int_invalid ->
  add_product POST form drawn (reachable rows) fl
  = if negb (int64 (stock_of (form_stock _ form)))
    then (inl OverflowError, fl)
    else match new_rowid rows drawn with
         | None =>
             (inr (Redirect "index", reachable rows),
              (fl ++ [("danger", "Database error! Could not add product.")])
                %list)
         | Some key =>
             match form_price _ form with
             | float_number x =>
                 (inr (Redirect "index",
                       reachable
                         (insert_row
                            (mkProduct key n x (stock_of (form_stock _ form))
                               (arg_str (form_description _ form) ""))
                            rows)),
                  (fl ++ [("success", "Product added successfully!")])%list)
             | _ => (inl IntegrityError, fl)
             end
         end.
Proof.
  intros Hn Hp1 Hp2 Hs. unfold add_product. rewrite Hn.
  unfold except_OperationalError, bind, add_commit, flash, ret, raise.
  destruct (form_price _ form); try congruence;
    destruct (form_stock _ form) as [| |z]; try congruence; simpl;
    try destruct (int64 z); simpl;
    destruct (new_rowid rows drawn); reflexivity.
Qed.

(** X13: with the database out of reach, a [POST] of a form whose fields
    convert is answered with a redirect to the list and the message
    "Database error! Could not add product."; nothing is raised. *)
Theorem add_product_database_unreachable (form : AddForm Float) n drawn fl :
  form_name _ form = Some n ->
  form_price _ form <> float_missing ->
  form_price _ form <> float_invalid ->
  form_stock _ form <> int_invalid ->
  add_product POST form drawn unreachable fl
  = (inr (Redirect "index", unreachable),
     (fl ++ [("danger", "Database error! Could not add product.")])%list).
Proof.
  intros Hn Hp1 Hp2 Hs. unfold add_product. rewrite Hn.
  destruct (form_price _ form); try congruence;
    destruct (form_stock _ form); try congruence; reflexivity.
Qed.

(** X14: on SQLite, with the database in reach, a stock of 64 bits and a
    table whose next key is one of 64 bits, a [POST] of a form whose
    fields convert (the price being a number) appends one product under
    that key, which no product had, flashes "Product added successfully!"
    and redirects; the list page then shows the old products followed by
    the new one. *)
Theorem add_product_then_index (form : AddForm Float) n x rows drawn fl url
    debug :
  form_name _ form = Some n ->
  form_price _ form = float_number x ->
  form_stock _ form <> int_invalid ->
  (- 2 ^ 63 <= stock_of (form_stock _ form) < 2 ^ 63)%Z ->
  (- 2 ^ 63 <= next_product_id rows < 2 ^ 63)%Z ->
  let row := mkProduct (next_product_id rows) n x
               (stock_of (form_stock _ form))
               (arg_str (form_description _ form) "") in
  let fl' := (fl ++ [("success", "Product added successfully!")])%list in
  add_product POST form drawn (reachable rows) fl
  = (inr (Redirect "index", reachable (rows ++ [row])%list), fl')
  /\ dispatch_request debug (add_product POST form drawn (reachable rows))
       fl
     = (Respond 302 (Redirect "index"), fl')
  /\ ~ In (id row) (map id rows)
  /\ serve (index url (reachable (rows ++ [row])%list)) fl'
     = (Respond 200 {| template := "index.html";
                       products := (rows ++ [row])%list;
                       db_type := detect_db_type url;
                       db_url := url |}, fl').
Proof.
  intros Hn Hp Hs Hstock Hkey row fl'.
  assert (Hadd : add_product POST form drawn (reachable rows) fl
                 = (inr (Redirect "index", reachable (rows ++ [row])%list),
                    fl')).
  { rewrite (add_product_reachable form n drawn rows fl Hn);
      try congruence.
    rewrite (int64_true _ Hstock). simpl.
    unfold new_rowid. rewrite (int64_true _ Hkey), Hp.
    rewrite insert_row_next. reflexivity. }
  split; [exact Hadd |]. split; [| split].
  - unfold dispatch_request. rewrite Hadd. reflexivity.
  - intros Hin. apply in_map_iff in Hin. destruct Hin as (p & Heq & Hp').
    pose proof (product_next_id_above rows p Hp'). simpl in Heq. lia.
  - reflexivity.
Qed.

(** X15: a [GET] renders the form.  In a [POST] without a name or a
    price the view raises [BadRequestKeyError]: Flask answers it 400,
    but not in debug mode, which [app.run] is given unless [FLASK_DEBUG]
    is set to something other than [True]: there the exception is
    trapped and goes on.  A price or stock that does not convert raises
    [ValueError].  On SQLite, with the database in reach, a stock beyond
    64 bits raises [OverflowError] and, the stock and the next key being
    of 64 bits, a [NaN] price raises [IntegrityError] at the commit.
    None of these is caught by the view, nothing is flashed and the
    table is not written. *)
Theorem add_product_bad_form (form : AddForm Float) drawn db fl debug :
  add_product GET form drawn db fl = (inr (Render "add.html", db), fl)
  /\ (form_name _ form = None
      \/ (form_name _ form <> None /\ form_price _ form = float_missing) ->
      add_product POST form drawn db fl = (inl BadRequestKeyError, fl)
      /\ dispatch_request debug (add_product POST form drawn db) fl
         = (if debug then Unhandled BadRequestKeyError
            else Respond 400 (Abort 400), fl))
  /\ debug_mode None = true
  /\ (form_name _ form <> None -> form_price _ form = float_invalid ->
      add_product POST form drawn db fl = (inl ValueError, fl))
  /\ (form_name _ form <> None -> form_price _ form <> float_missing ->
      form_stock _ form = int_invalid ->
      add_product POST form drawn db fl = (inl ValueError, fl))
  /\ (form_name _ form <> None -> form_price _ form <> float_missing ->
      form_price _ form <> float_invalid ->
      form_stock _ form <> int_invalid ->
      ~ (- 2 ^ 63 <= stock_of (form_stock _ form) < 2 ^ 63)%Z ->
      forall rows, db = reachable rows ->
      add_product POST form drawn db fl = (inl OverflowError, fl))
  /\ (form_name _ form <> None -> form_price _ form = float_nan ->
      form_stock _ form <> int_invalid ->
      (- 2 ^ 63 <= stock_of (form_stock _ form) < 2 ^ 63)%Z ->
      forall rows, db = reachable rows ->
      (- 2 ^ 63 <= next_product_id rows < 2 ^ 63)%Z ->
      add_product POST form drawn db fl = (inl IntegrityError, fl)).
Proof.
  split; [reflexivity |]. split; [| split; [reflexivity |]].
  - intros H.
    assert (Hadd : add_product POST form drawn db fl
                   = (inl BadRequestKeyError, fl)).
    { unfold add_product.
      destruct H as [->|[Hn ->]]; [reflexivity |].
      destruct (form_name _ form); [reflexivity | congruence]. }
    split; [exact Hadd |].
    unfold dispatch_request. rewrite Hadd. reflexivity.
  - split; [| split; [| split]].
    + unfold add_product. intros Hn ->.
      destruct (form_name _ form); [reflexivity | congruence].
    + unfold add_product. intros Hn Hp ->.
      destruct (form_name _ form); [| congruence].
      destruct (form_price _ form); try congruence; reflexivity.
    + intros Hn Hp1 Hp2 Hs Hstock rows ->.
      destruct (form_name _ form) as [n|] eqn:En; [| congruence].
      rewrite (add_product_reachable form n drawn rows fl En Hp1 Hp2 Hs).
      rewrite (int64_false _ Hstock). reflexivity.
    + intros Hn Hp Hs Hstock rows -> Hkey.
      destruct (form_name _ form) as [n|] eqn:En; [| congruence].
      rewrite (add_product_reachable form n drawn rows fl En);
        try congruence.
      rewrite (int64_true _ Hstock). simpl.
      unfold new_rowid. rewrite (int64_true _ Hkey), Hp. reflexivity.
Qed.

(** X16: with the database out of reach, [delete_product] flashes
    "Database error! Could not delete product." and redirects.  On
    SQLite, with the database in reach: a key beyond 64 bits raises
    [OverflowError], which the view does not catch; a key of 64 bits
    that no product has is answered 404 with nothing flashed or written;
    on a product the view removes that product, flashes "Product
    deleted!" and redirects, and the key is then gone. *)
Theorem delete_product_outcomes (rows : list Row) i fl debug :
  delete_product i (@unreachable Row) fl
  = (inr (Redirect "index", unreachable),
     (fl ++ [("danger", "Database error! Could not delete product.")])%list)
  /\ (~ (- 2 ^ 63 <= i < 2 ^ 63)%Z ->
      delete_product i (reachable rows) fl = (inl OverflowError, fl))
  /\ ((- 2 ^ 63 <= i < 2 ^ 63)%Z -> ~ In i (map id rows) ->
      delete_product i (reachable rows) fl
      = (inr (Abort 404, reachable rows), fl)
      /\ dispatch_request debug (delete_product i (reachable rows)) fl
         = (Respond 404 (Abort 404), fl))
  /\ ((- 2 ^ 63 <= i < 2 ^ 63)%Z -> In i (map id rows) ->
      let rows' := filter (fun p => negb (id p =? i)%Z) rows in
      delete_product i (reachable rows) fl
      = (inr (Redirect "index", reachable rows'),
         (fl ++ [("danger", "Product deleted!")])%list)
      /\ ~ In i (map id rows')
      /\ (forall p, In p rows -> id p <> i -> In p rows')).
Proof.
  split; [reflexivity |]. split; [| split].
  - intros Hi. unfold delete_product, get_or_404, except_OperationalError,
      bind, query_all, ret. rewrite (int64_false _ Hi). reflexivity.
  - intros Hi Hn.
    assert (Hdel : delete_product i (reachable rows) fl
                   = (inr (Abort 404, reachable rows), fl)).
    { unfold delete_product, get_or_404, except_OperationalError,
        bind, query_all, ret. rewrite (int64_true _ Hi). simpl.
      destruct (find _ rows) as [p|] eqn:E; [| reflexivity].
      exfalso. apply find_some in E. destruct E as [Hin Heq].
      apply Z.eqb_eq in Heq. apply Hn. rewrite <- Heq. apply in_map.
      exact Hin. }
    split; [exact Hdel |].
    unfold dispatch_request. rewrite Hdel. reflexivity.
  - intros Hi Hin rows'. split; [| split].
    + unfold delete_product, get_or_404, except_OperationalError,
        bind, query_all, ret. rewrite (int64_true _ Hi). simpl.
      destruct (find _ rows) as [p|] eqn:E; [reflexivity |].
      exfalso. apply in_map_iff in Hin. destruct Hin as (p & Heq & Hp).
      apply (find_none _ _ E) in Hp. simpl in Hp.
      apply Z.eqb_neq in Hp. contradiction.
    + intros H. apply in_map_iff in H. destruct H as (p & Heq & Hp).
      apply filter_In in Hp. destruct Hp as [_ Hp].
      apply negb_true_iff, Z.eqb_neq in Hp. contradiction.
    + intros p Hp Hne. apply filter_In. split; [exact Hp |].
      apply negb_true_iff, Z.eqb_neq. exact Hne.
Qed.

(** X17: on SQLite, where the key of a new product is one more than the
    largest in use, deleting under that key the product a [POST] just
    added gives back the table as it was before; the key is taken to be
    one of 64 bits. *)
Theorem add_product_then_delete (form : AddForm Float) n x rows drawn fl fl'
    db' :
  form_name _ form = Some n ->
  form_price _ form = float_number x ->
  form_stock _ form <> int_invalid ->
  (- 2 ^ 63 <= next_product_id rows < 2 ^ 63)%Z ->
  add_product POST form drawn (reachable rows) fl
  = (inr (Redirect "index", db'), fl') ->
  fl' = (fl ++ [("success", "Product added successfully!")])%list
  /\ delete_product (next_product_id rows) db' fl'
     = (inr (Redirect "index", reachable rows),
        (fl' ++ [("danger", "Product deleted!")])%list).
Proof.
  intros Hn Hp Hs Hkey Hadd.
  rewrite (add_product_reachable form n drawn rows fl Hn) in Hadd;
    try congruence.
  destruct (negb (int64 (stock_of (form_stock _ form)))); [discriminate |].
  unfold new_rowid in Hadd. rewrite (int64_true _ Hkey), Hp in Hadd.
  rewrite insert_row_next in Hadd. inversion Hadd. subst db'.
  split; [reflexivity |].
  unfold delete_product, get_or_404, delete_commit, except_OperationalError,
    bind, query_all, ret, flash. rewrite (int64_true _ Hkey). simpl.
  rewrite find_append, find_next_id. simpl. rewrite Z.eqb_refl.
  rewrite filter_app, filter_next_id. simpl. rewrite Z.eqb_refl. simpl.
  rewrite app_nil_r. reflexivity.
Qed.

(** X18: [performance_test] has no [try]: with the database out of reach
    it raises [OperationalError], on the very database for which the list
    page is answered; in reach, [records] is the number of products the
    list page shows. *)
Theorem performance_test_database (url : string) (elapsed : Seconds)
    (rows : list Row) fl :
  performance_test url elapsed (@unreachable Row) fl
  = (inl OperationalError, fl)
  /\ (exists page fl',
        serve (index url (@unreachable Row)) fl = (Respond 200 page, fl'))
  /\ performance_test url elapsed (reachable rows) fl
     = (inr {| database := url;
               records := Z.of_nat (List.length rows);
               execution_time_seconds := elapsed |}, fl).
Proof.
  split; [reflexivity |]. split; [| reflexivity].
  eexists. eexists. reflexivity.
Qed.

Variables laptop_price mouse_price keyboard_price : Float.

(** X19: [init_db] does not raise when the database is out of reach: it
    prints the failure and carries on.  It writes the three sample
    products into an empty table only, so a table with a product in it
    is left as it is and a second run changes nothing. *)
Theorem init_db_products_once url reason reason' (db : Database Row) rows :
  let init := init_db laptop_price mouse_price keyboard_price url in
  init reason unreachable
  = (unreachable,
     ["❌ DATABASE CONNECTION FAILED"; "Reason: " ++ reason;
      "➡ Check DATABASE_URL and DB server"])
  /\ fst (init reason (reachable []))
     = reachable (sample_products laptop_price mouse_price keyboard_price)
  /\ (rows <> [] -> fst (init reason (reachable rows)) = reachable rows)
  /\ fst (init reason' (fst (init reason db))) = fst (init reason db).
Proof.
  intros init. split; [reflexivity |]. split; [reflexivity |]. split.
  - intros Hne. destruct rows; [contradiction | reflexivity].
  - destruct db as [[|r rs]|]; reflexivity.
Qed.

End Inventory.

Lemma add_product_database_unreachable_witness :
  add_product POST laptop None unreachable []
  = (inr (Redirect "index", unreachable),
     [("danger", "Database error! Could not add product.")]).
Proof.
  apply (add_product_database_unreachable Z laptop "Laptop" None []);
    [reflexivity | discriminate | discriminate | discriminate].
Defined.

Lemma add_product_then_index_witness :
  let row := mkProduct 1 "Laptop" 99999%Z 0 "" in
  let fl' := [("success", "Product added successfully!")] in
  add_product POST laptop None (reachable []) []
  = (inr (Redirect "index", reachable [row]), fl')
  /\ dispatch_request true (add_product POST laptop None (reachable [])) []
     = (Respond 302 (Redirect "index"), fl')
  /\ ~ In (id row) (map id (@nil (Product Z)))
  /\ serve (index "sqlite:///default.db" (reachable [row])) fl'
     = (Respond 200 {| template := "index.html";
                       products := [row];
                       db_type := "SQLite";
                       db_url := "sqlite:///default.db" |}, fl').
Proof.
  apply (add_product_then_index Z laptop "Laptop" 99999%Z [] None []
           "sqlite:///default.db" true);
    first [ reflexivity | discriminate
          | split; [apply Z.leb_le | apply Z.ltb_lt]; reflexivity ].
Defined.

Lemma add_product_then_delete_witness :
  [("success", "Product added successfully!")]
  = ([] ++ [("success", "Product added successfully!")])%list
  /\ delete_product 1 (reachable [mkProduct 1 "Laptop" 99999%Z 0 ""])
       [("success", "Product added successfully!")]
     = (inr (Redirect "index", reachable []),
        [("success", "Product added successfully!");
         ("danger", "Product deleted!")]).
Proof.
  apply (add_product_then_delete Z laptop "Laptop" 99999%Z [] None []);
    first [ reflexivity | discriminate
          | split; [apply Z.leb_le | apply Z.ltb_lt]; reflexivity ].
Defined.

End Part5RoutesFacts.
